(** * Nomad CSI volume resource: parser, planner, reconciler and poller

    A shallow embedding of [resource_csi_volume.go] (the CSI volume resource
    of the Nomad Terraform provider) together with the properties of its
    specification that can be settled on the code.

    Conventions of the embedding.
    - A Go [string] and a Go [[]byte] are a [string]; inside the JSON reader
      they are the list of their bytes.
    - A Go [error] is the text [err.Error()] returns: the source only ever
      formats errors with [%s] or searches them with [strings.Contains].
      A Go [(T, error)] result whose [T] is a pointer is a pair of options,
      so that a nil pointer next to a nil error can be expressed.
    - The schema-typed attribute store of the plugin SDK is a record of
      finite maps, one per value type; reading an unset key gives the zero
      value of its type.
    - The remote API client is an oracle answering each call from the
      history of calls made so far; every call is appended to that history. *)

From Stdlib Require Import Ascii String NArith Lia.
From Stdlib Require Import DecimalString.
From stdpp Require Import gmap strings list.

Local Open Scope char_scope.

(** ** Text helpers *)

Abbreviation bytes := (list ascii).

Definition to_bytes (s : string) : bytes := list_ascii_of_string s.
Definition of_bytes (l : bytes) : string := string_of_list_ascii l.

(** JSON text is written with apostrophes in this file; [dq] turns every
    apostrophe into a quotation mark. *)
Definition quote_char : ascii := "034".

Fixpoint dq (s : string) : string :=
  match s with
  | EmptyString => EmptyString
  | String c r => String (if Ascii.eqb c "'" then quote_char else c) (dq r)
  end.

(** [strings.HasPrefix] and [strings.Contains]. *)
Fixpoint HasPrefix (s p : string) {struct p} : bool :=
  match p with
  | EmptyString => true
  | String b p' =>
    match s with
    | EmptyString => false
    | String a s' => Ascii.eqb a b && HasPrefix s' p'
    end
  end.

Fixpoint Contains (s sub : string) : bool :=
  HasPrefix s sub ||
  match s with
  | EmptyString => false
  | String _ s' => Contains s' sub
  end.

(** [strconv.FormatUint(n, 10)]. *)
Definition FormatUint (n : N) : string := NilZero.string_of_uint (N.to_uint n).

(** ** JSON documents *)

Module Json.

(** The reader of [encoding/json], which is not part of this package: which
    texts it accepts, and the value of each.  The wording of its error
    messages is approximate; the nesting limit of recent versions of the
    library and the replacement of invalid UTF-8 inside string literals are
    left out.

    A decoded JSON value: number literals keep their text; every member of
    an object keeps the bytes of its value, which is what a
    [json.RawMessage] receives. *)
#[warnings="-register-all"]
Inductive value :=
| Null
| Bool (b : bool)
| Number (lit : string)
| Str (s : string)
| Array (xs : list value)
| Object (ms : list (string * (string * value))).

Inductive result (A : Type) :=
| Ok (a : A) (rest : bytes)
| Err (msg : string)
| OutOfFuel.
Arguments Ok {A} a rest.
Arguments Err {A} msg.
Arguments OutOfFuel {A}.

Definition is_ws (c : ascii) : bool :=
  Ascii.eqb c " " || Ascii.eqb c "009" || Ascii.eqb c "010" || Ascii.eqb c "013".

Fixpoint skip_ws (s : bytes) : bytes :=
  match s with
  | c :: r => if is_ws c then skip_ws r else s
  | [] => []
  end.

Definition is_digit (c : ascii) : bool :=
  (48 <=? N_of_ascii c)%N && (N_of_ascii c <=? 57)%N.

Definition is_digit19 (c : ascii) : bool :=
  (49 <=? N_of_ascii c)%N && (N_of_ascii c <=? 57)%N.

Definition is_hex (c : ascii) : bool :=
  is_digit c
  || ((65 <=? N_of_ascii c)%N && (N_of_ascii c <=? 70)%N)
  || ((97 <=? N_of_ascii c)%N && (N_of_ascii c <=? 102)%N).

Definition eof_msg : string := "unexpected end of JSON input".

Definition bad_char (c : ascii) (ctx : string) : string :=
  "invalid character '" +:+ String c "' " +:+ ctx.

(** *** String literals

    The scanner validates a literal one byte at a time, in the states of
    the library's scanner: inside the string, after a backslash, and inside
    the four hexadecimal digits of a [\u] escape. *)
Inductive str_state :=
| InString
| InStringEsc
| InStringEscU (left : nat).

Definition is_simple_escape (c : ascii) : bool :=
  Ascii.eqb c quote_char || Ascii.eqb c "\" || Ascii.eqb c "/" || Ascii.eqb c "b"
  || Ascii.eqb c "f" || Ascii.eqb c "n" || Ascii.eqb c "r" || Ascii.eqb c "t".

(** [scan_string st s acc] reads the body of a literal whose opening quote
    has been consumed; [acc] is the body read so far, reversed. *)
Fixpoint scan_string (st : str_state) (s : bytes) (acc : bytes) : result bytes :=
  match s with
  | [] => Err eof_msg
  | c :: r =>
    match st with
    | InString =>
      if Ascii.eqb c quote_char then Ok (rev acc) r
      else if Ascii.eqb c "\" then scan_string InStringEsc r (c :: acc)
      else if (N_of_ascii c <? 32)%N then Err (bad_char c "in string literal")
      else scan_string InString r (c :: acc)
    | InStringEsc =>
      if is_simple_escape c then scan_string InString r (c :: acc)
      else if Ascii.eqb c "u" then scan_string (InStringEscU 3) r (c :: acc)
      else Err (bad_char c "in string escape code")
    | InStringEscU k =>
      if is_hex c then
        match k with
        | 0 => scan_string InString r (c :: acc)
        | S k' => scan_string (InStringEscU k') r (c :: acc)
        end
      else Err (bad_char c "in \u hexadecimal character escape")
    end
  end.

(** *** Decoding a validated literal body *)

Definition hex_val (c : ascii) : N :=
  let n := N_of_ascii c in
  if is_digit c then n - 48
  else if (97 <=? n)%N then n - 87
  else n - 55.

Definition hex4 (a b c d : ascii) : N :=
  ((hex_val a * 16 + hex_val b) * 16 + hex_val c) * 16 + hex_val d.

Definition utf8 (r : N) : bytes :=
  if (r <? 128)%N then [ascii_of_N r]
  else if (r <? 2048)%N then
    [ascii_of_N (192 + r / 64); ascii_of_N (128 + r mod 64)]
  else if (r <? 65536)%N then
    [ascii_of_N (224 + r / 4096); ascii_of_N (128 + (r / 64) mod 64);
     ascii_of_N (128 + r mod 64)]
  else
    [ascii_of_N (240 + r / 262144); ascii_of_N (128 + (r / 4096) mod 64);
     ascii_of_N (128 + (r / 64) mod 64); ascii_of_N (128 + r mod 64)].

Definition replacement_char : N := 65533.

Definition is_surrogate (r : N) : bool := (55296 <=? r)%N && (r <? 57344)%N.

(** [utf16.DecodeRune]: a high surrogate followed by a low one. *)
Definition decode_pair (r1 r2 : N) : option N :=
  if (55296 <=? r1)%N && (r1 <? 56320)%N && (56320 <=? r2)%N && (r2 <? 57344)%N
  then Some ((r1 - 55296) * 1024 + (r2 - 56320) + 65536)%N
  else None.

Definition simple_escape (c : ascii) : ascii :=
  if Ascii.eqb c "b" then "008"
  else if Ascii.eqb c "f" then "012"
  else if Ascii.eqb c "n" then "010"
  else if Ascii.eqb c "r" then "013"
  else if Ascii.eqb c "t" then "009"
  else c.

Fixpoint unquote (s : bytes) : bytes :=
  match s with
  | [] => []
  | c :: r =>
    if Ascii.eqb c "\" then
      match r with
      | [] => []
      | e :: r1 =>
        if Ascii.eqb e "u" then
          match r1 with
          | h1 :: h2 :: h3 :: h4 :: r2 =>
            let rr := hex4 h1 h2 h3 h4 in
            if is_surrogate rr then
              match r2 with
              | b :: u :: g1 :: g2 :: g3 :: g4 :: r3 =>
                if Ascii.eqb b "\" && Ascii.eqb u "u"
                   && is_hex g1 && is_hex g2 && is_hex g3 && is_hex g4 then
                  match decode_pair rr (hex4 g1 g2 g3 g4) with
                  | Some dec => utf8 dec ++ unquote r3
                  | None => utf8 replacement_char ++ unquote r2
                  end
                else utf8 replacement_char ++ unquote r2
              | _ => utf8 replacement_char ++ unquote r2
              end
            else utf8 rr ++ unquote r2
          | _ => []
          end
        else simple_escape e :: unquote r1
      end
    else c :: unquote r
  end.

(** *** Number literals, in the scanner's states *)
Inductive num_state :=
| NumNeg | Num0 | Num1 | NumDot | NumDot0 | NumE | NumESign | NumE0.

Definition num_accepting (st : num_state) : bool :=
  match st with
  | Num0 | Num1 | NumDot0 | NumE0 => true
  | _ => false
  end.

Definition is_e (c : ascii) : bool := Ascii.eqb c "e" || Ascii.eqb c "E".
Definition is_sign (c : ascii) : bool := Ascii.eqb c "+" || Ascii.eqb c "-".

(** The next state on byte [c], or [None] when [c] does not continue the
    literal. *)
Definition num_step (st : num_state) (c : ascii) : option num_state :=
  match st with
  | NumNeg =>
    if Ascii.eqb c "0" then Some Num0
    else if is_digit19 c then Some Num1 else None
  | Num0 =>
    if Ascii.eqb c "." then Some NumDot
    else if is_e c then Some NumE else None
  | Num1 =>
    if is_digit c then Some Num1
    else if Ascii.eqb c "." then Some NumDot
    else if is_e c then Some NumE else None
  | NumDot => if is_digit c then Some NumDot0 else None
  | NumDot0 =>
    if is_digit c then Some NumDot0
    else if is_e c then Some NumE else None
  | NumE =>
    if is_sign c then Some NumESign
    else if is_digit c then Some NumE0 else None
  | NumESign => if is_digit c then Some NumE0 else None
  | NumE0 => if is_digit c then Some NumE0 else None
  end.

Fixpoint scan_number (st : num_state) (s : bytes) (acc : bytes) : result bytes :=
  match s with
  | [] => if num_accepting st then Ok (rev acc) [] else Err eof_msg
  | c :: r =>
    match num_step st c with
    | Some st' => scan_number st' r (c :: acc)
    | None =>
      if num_accepting st then Ok (rev acc) s
      else Err (bad_char c "in numeric literal")
    end
  end.

(** The bytes a parser consumed: the input without the rest it returned. *)
Definition consumed (s r : bytes) : bytes := take (length s - length r) s.

(** *** Values

    One layer of each of the three mutually recursive readers, over the
    readers of the layer below.  Every reader expects its input to start at
    a non-blank byte. *)

Abbreviation member := (string * (string * value))%type.

Definition lift {A B} (f : A -> B) (r : result A) : result B :=
  match r with
  | Ok a rest => Ok (f a) rest
  | Err e => Err e
  | OutOfFuel => OutOfFuel
  end.

Definition value_body
  (read_members : bytes -> list member -> result (list member))
  (read_elements : bytes -> list value -> result (list value))
  (s : bytes) : result value :=
  match s with
  | [] => Err eof_msg
  | c :: r =>
    if Ascii.eqb c "{" then
      match skip_ws r with
      | [] => Err eof_msg
      | c1 :: r1 =>
        if Ascii.eqb c1 "}" then Ok (Object []) r1
        else lift Object (read_members (c1 :: r1) [])
      end
    else if Ascii.eqb c "[" then
      match skip_ws r with
      | [] => Err eof_msg
      | c1 :: r1 =>
        if Ascii.eqb c1 "]" then Ok (Array []) r1
        else lift Array (read_elements (c1 :: r1) [])
      end
    else if Ascii.eqb c quote_char then
      lift (fun body => Str (of_bytes (unquote body))) (scan_string InString r [])
    else if Ascii.eqb c "-" then
      lift (fun lit => Number (of_bytes lit)) (scan_number NumNeg r [c])
    else if Ascii.eqb c "0" then
      lift (fun lit => Number (of_bytes lit)) (scan_number Num0 r [c])
    else if is_digit19 c then
      lift (fun lit => Number (of_bytes lit)) (scan_number Num1 r [c])
    else if Ascii.eqb c "t" then
      match r with
      | c1 :: c2 :: c3 :: r1 =>
        if Ascii.eqb c1 "r" && Ascii.eqb c2 "u" && Ascii.eqb c3 "e"
        then Ok (Bool true) r1 else Err (bad_char c "in literal true")
      | _ => Err eof_msg
      end
    else if Ascii.eqb c "f" then
      match r with
      | c1 :: c2 :: c3 :: c4 :: r1 =>
        if Ascii.eqb c1 "a" && Ascii.eqb c2 "l" && Ascii.eqb c3 "s"
           && Ascii.eqb c4 "e"
        then Ok (Bool false) r1 else Err (bad_char c "in literal false")
      | _ => Err eof_msg
      end
    else if Ascii.eqb c "n" then
      match r with
      | c1 :: c2 :: c3 :: r1 =>
        if Ascii.eqb c1 "u" && Ascii.eqb c2 "l" && Ascii.eqb c3 "l"
        then Ok Null r1 else Err (bad_char c "in literal null")
      | _ => Err eof_msg
      end
    else Err (bad_char c "looking for beginning of value")
  end.

(** The members of an object, from the first key on; [acc] holds the
    members read so far, reversed. *)
Definition members_body
  (read_value : bytes -> result value)
  (read_members : bytes -> list member -> result (list member))
  (s : bytes) (acc : list member) : result (list member) :=
  match s with
  | [] => Err eof_msg
  | c :: r =>
    if Ascii.eqb c quote_char then
      match scan_string InString r [] with
      | Ok body r1 =>
        match skip_ws r1 with
        | [] => Err eof_msg
        | c2 :: r2 =>
          if Ascii.eqb c2 ":" then
            match read_value (skip_ws r2) with
            | Ok v r3 =>
              let m := (of_bytes (unquote body),
                        (of_bytes (consumed (skip_ws r2) r3), v)) in
              match skip_ws r3 with
              | [] => Err eof_msg
              | c4 :: r4 =>
                if Ascii.eqb c4 "," then read_members (skip_ws r4) (m :: acc)
                else if Ascii.eqb c4 "}" then Ok (rev (m :: acc)) r4
                else Err (bad_char c4 "after object key:value pair")
              end
            | Err e => Err e
            | OutOfFuel => OutOfFuel
            end
          else Err (bad_char c2 "after object key")
        end
      | Err e => Err e
      | OutOfFuel => OutOfFuel
      end
    else Err (bad_char c "looking for beginning of object key string")
  end.

(** The elements of an array, from the first one on. *)
Definition elements_body
  (read_value : bytes -> result value)
  (read_elements : bytes -> list value -> result (list value))
  (s : bytes) (acc : list value) : result (list value) :=
  match read_value s with
  | Ok v r1 =>
    match skip_ws r1 with
    | [] => Err eof_msg
    | c2 :: r2 =>
      if Ascii.eqb c2 "," then read_elements (skip_ws r2) (v :: acc)
      else if Ascii.eqb c2 "]" then Ok (rev (v :: acc)) r2
      else Err (bad_char c2 "after array element")
    end
  | Err e => Err e
  | OutOfFuel => OutOfFuel
  end.

(** The readers; the fuel [n] bounds the nesting depth plus the number of
    members and elements read. *)
Fixpoint parse_value (n : nat) (s : bytes) {struct n} : result value :=
  match n with
  | 0 => OutOfFuel
  | S n' => value_body (parse_members n') (parse_elements n') s
  end
with parse_members (n : nat) (s : bytes) (acc : list member) {struct n}
  : result (list member) :=
  match n with
  | 0 => OutOfFuel
  | S n' => members_body (parse_value n') (parse_members n') s acc
  end
with parse_elements (n : nat) (s : bytes) (acc : list value) {struct n}
  : result (list value) :=
  match n with
  | 0 => OutOfFuel
  | S n' => elements_body (parse_value n') (parse_elements n') s acc
  end.

(** The fuel that suffices for a text. *)
Definition fuel_for (s : bytes) : nat := S (2 * length s).

(** A whole document: one value surrounded by white space. *)
Definition parse (data : string) : string + value :=
  let s := to_bytes data in
  match parse_value (fuel_for s) (skip_ws s) with
  | Ok v r =>
    match skip_ws r with
    | [] => inr v
    | c :: _ => inl (bad_char c "after top-level value")
    end
  | Err e => inl e
  | OutOfFuel => inl "exceeded max depth"%string
  end.

(** *** Notions used to state facts about the readers *)

Definition num_char (c : ascii) : bool :=
  is_digit c || Ascii.eqb c "." || is_e c || is_sign c.

(** The text after a value does not continue a number literal. *)
Definition nfollow (x : bytes) : Prop :=
  match x with
  | [] => True
  | c :: _ => num_char c = false
  end.

(** A reader is local when a successful read depends on the bytes it
    consumed only: it consumed a non-empty prefix of its input and reads the
    same from that prefix followed by any text [F] admits. *)
Definition local {A} (F : bytes -> Prop) (p : bytes -> result A) : Prop :=
  forall s a r, p s = Ok a r ->
    exists c, s = c ++ r /\ c <> [] /\ forall x, F x -> p (c ++ x) = Ok a x.

End Json.

Local Close Scope char_scope.

(** ** The records of the remote API

    [api.CSIVolume], [api.Evaluation] and [api.Deployment] are declared in
    the Nomad client library, outside this package; each record has the
    fields this package reads or writes.  The library's [CSIVolume] has
    further fields (topologies, secrets, parameters, context, allocations,
    plugin health), which are left out: a document that sets only such a
    field decodes to the all-default record here, and a value of the wrong
    type for such a field goes unnoticed. *)

Definition error := string.

Module CSIMountOptions.
Record t := mk { FSType : string; MountFlags : list string }.
Definition zero : t := {| FSType := ""; MountFlags := [] |}.
Global Instance eq_dec : EqDecision t.
Proof. solve_decision. Defined.
End CSIMountOptions.

Module CSIVolume.
Record t := mk {
  ID : string;
  Name : string;
  ExternalID : string;
  Namespace : string;
  AccessMode : string;
  AttachmentMode : string;
  MountOptions : option CSIMountOptions.t;
  PluginID : string;
  CreateIndex : N;
  ModifyIndex : N
}.

(** [api.CSIVolume{}] *)
Definition zero : t :=
  {| ID := ""; Name := ""; ExternalID := ""; Namespace := "";
     AccessMode := ""; AttachmentMode := ""; MountOptions := None;
     PluginID := ""; CreateIndex := 0; ModifyIndex := 0 |}.

Global Instance eq_dec : EqDecision t.
Proof. solve_decision. Defined.

Definition with_Namespace (ns : string) (v : t) : t :=
  {| ID := ID v; Name := Name v; ExternalID := ExternalID v; Namespace := ns;
     AccessMode := AccessMode v; AttachmentMode := AttachmentMode v;
     MountOptions := MountOptions v; PluginID := PluginID v;
     CreateIndex := CreateIndex v; ModifyIndex := ModifyIndex v |}.
End CSIVolume.

Module Evaluation.
Record t := mk {
  ID : string;
  Status : string;
  StatusDescription : string;
  NextEval : string;
  DeploymentID : string
}.
End Evaluation.

Module Deployment.
Record t := mk {
  ID : string;
  Status : string;
  StatusDescription : string
}.
End Deployment.

(** ** [json.Unmarshal] at the two types the parser uses *)

Module Decode.
Import Json.

Definition kind_name (v : value) : string :=
  match v with
  | Null => "null"
  | Bool _ => "bool"
  | Number _ => "number"
  | Str _ => "string"
  | Array _ => "array"
  | Object _ => "object"
  end.

Definition field_error (what field ty : string) : error :=
  "json: cannot unmarshal " +:+ what +:+ " into Go struct field " +:+ field
    +:+ " of type " +:+ ty.

Definition value_error (what ty : string) : error :=
  "json: cannot unmarshal " +:+ what +:+ " into Go value of type " +:+ ty.

(** A key matches the name of a field exactly or, failing that, under the
    folding of the library: ASCII letters without regard to case, and for a
    letter s or k of the name also the long s (U+017F, bytes 197 191) or the
    Kelvin sign (U+212A, bytes 226 132 170) in the key. *)
Definition lower (c : ascii) : ascii :=
  let n := N_of_ascii c in
  if (65 <=? n)%N && (n <=? 90)%N then ascii_of_N (n + 32) else c.

Fixpoint equal_fold (key name : string) {struct name} : bool :=
  match name with
  | EmptyString =>
    match key with
    | EmptyString => true
    | String _ _ => false
    end
  | String y name' =>
    match key with
    | EmptyString => false
    | String x key1 =>
      if (N_of_ascii x <? 128)%N then
        Ascii.eqb (lower x) (lower y) && equal_fold key1 name'
      else if Ascii.eqb (lower y) "s"%char then
        match key1 with
        | String x1 key2 =>
          Ascii.eqb x "197"%char && Ascii.eqb x1 "191"%char
          && equal_fold key2 name'
        | EmptyString => false
        end
      else if Ascii.eqb (lower y) "k"%char then
        match key1 with
        | String x1 (String x2 key3) =>
          Ascii.eqb x "226"%char && Ascii.eqb x1 "132"%char
          && Ascii.eqb x2 "170"%char && equal_fold key3 name'
        | _ => false
        end
      else false
    end
  end.

(** [strconv.ParseUint(s, 10, 64)] *)
Fixpoint digits_value (s : string) (acc : N) : option N :=
  match s with
  | EmptyString => Some acc
  | String c r =>
    if is_digit c then digits_value r (acc * 10 + (N_of_ascii c - 48))%N
    else None
  end.

Definition ParseUint64 (s : string) : option N :=
  match s with
  | EmptyString => None
  | _ =>
    match digits_value s 0 with
    | Some n => if (n <? 2 ^ 64)%N then Some n else None
    | None => None
    end
  end.

Definition string_field (field ty : string) (v : value) (cur : string)
  : error + string :=
  match v with
  | Str s => inr s
  | Null => inr cur
  | _ => inl (field_error (kind_name v) field ty)
  end.

Definition uint64_field (field : string) (v : value) (cur : N) : error + N :=
  match v with
  | Number lit =>
    match ParseUint64 lit with
    | Some n => inr n
    | None => inl (field_error ("number " +:+ lit) field "uint64")
    end
  | Null => inr cur
  | _ => inl (field_error (kind_name v) field "uint64")
  end.

Fixpoint string_elements (field : string) (xs : list value)
  : error + list string :=
  match xs with
  | [] => inr []
  | x :: xs' =>
    match string_field field "string" x "" with
    | inl e => inl e
    | inr s =>
      match string_elements field xs' with
      | inl e => inl e
      | inr ss => inr (s :: ss)
      end
    end
  end.

Definition strings_field (field : string) (v : value) (cur : list string)
  : error + list string :=
  match v with
  | Array xs => string_elements field xs
  | Null => inr []
  | _ => inl (field_error (kind_name v) field "[]string")
  end.

Definition mount_options_member (k : string) (v : value)
  (cur : CSIMountOptions.t) : error + CSIMountOptions.t :=
  if equal_fold k "FSType" then
    match string_field "CSIMountOptions.FSType" "string" v
            (CSIMountOptions.FSType cur) with
    | inl e => inl e
    | inr s => inr (CSIMountOptions.mk s (CSIMountOptions.MountFlags cur))
    end
  else if equal_fold k "MountFlags" then
    match strings_field "CSIMountOptions.MountFlags" v
            (CSIMountOptions.MountFlags cur) with
    | inl e => inl e
    | inr fl => inr (CSIMountOptions.mk (CSIMountOptions.FSType cur) fl)
    end
  else inr cur.

(** Decoding the members of an object into a struct, in document order;
    the first type error is the one reported. *)
Fixpoint members {T : Type} (member : string -> value -> T -> error + T)
  (ms : list (string * (string * value))) (cur : T) : error + T :=
  match ms with
  | [] => inr cur
  | (k, (_, v)) :: ms' =>
    match member k v cur with
    | inl e => inl e
    | inr cur' => members member ms' cur'
    end
  end.

(** A [*CSIMountOptions] field: [null] resets the pointer, an object is
    decoded into the struct already there, or into a fresh one. *)
Definition mount_options_field (v : value) (cur : option CSIMountOptions.t)
  : error + option CSIMountOptions.t :=
  match v with
  | Null => inr None
  | Object ms =>
    match members mount_options_member ms
            (default CSIMountOptions.zero cur) with
    | inl e => inl e
    | inr m => inr (Some m)
    end
  | _ => inl (field_error (kind_name v) "CSIVolume.MountOptions"
                "api.CSIMountOptions")
  end.

Import CSIVolume.

(** One member of the object a record is decoded from.  A key that names
    none of the fields kept in [CSIVolume.t] leaves the record as it is:
    the decoder of the library skips unknown keys, and the values of the
    fields left out of the record are not checked here. *)
Definition volume_member (k : string) (v : value) (cur : CSIVolume.t)
  : error + CSIVolume.t :=
  if equal_fold k "ID" then
    match string_field "CSIVolume.ID" "string" v (ID cur) with
    | inl e => inl e
    | inr s =>
      inr (mk s (Name cur) (ExternalID cur) (Namespace cur) (AccessMode cur)
             (AttachmentMode cur) (MountOptions cur) (PluginID cur)
             (CreateIndex cur) (ModifyIndex cur))
    end
  else if equal_fold k "Name" then
    match string_field "CSIVolume.Name" "string" v (Name cur) with
    | inl e => inl e
    | inr s =>
      inr (mk (ID cur) s (ExternalID cur) (Namespace cur) (AccessMode cur)
             (AttachmentMode cur) (MountOptions cur) (PluginID cur)
             (CreateIndex cur) (ModifyIndex cur))
    end
  else if equal_fold k "ExternalID" then
    match string_field "CSIVolume.ExternalID" "string" v (ExternalID cur) with
    | inl e => inl e
    | inr s =>
      inr (mk (ID cur) (Name cur) s (Namespace cur) (AccessMode cur)
             (AttachmentMode cur) (MountOptions cur) (PluginID cur)
             (CreateIndex cur) (ModifyIndex cur))
    end
  else if equal_fold k "Namespace" then
    match string_field "CSIVolume.Namespace" "string" v (Namespace cur) with
    | inl e => inl e
    | inr s => inr (with_Namespace s cur)
    end
  else if equal_fold k "AccessMode" then
    match string_field "CSIVolume.AccessMode" "api.CSIVolumeAccessMode" v
            (AccessMode cur) with
    | inl e => inl e
    | inr s =>
      inr (mk (ID cur) (Name cur) (ExternalID cur) (Namespace cur) s
             (AttachmentMode cur) (MountOptions cur) (PluginID cur)
             (CreateIndex cur) (ModifyIndex cur))
    end
  else if equal_fold k "AttachmentMode" then
    match string_field "CSIVolume.AttachmentMode"
            "api.CSIVolumeAttachmentMode" v (AttachmentMode cur) with
    | inl e => inl e
    | inr s =>
      inr (mk (ID cur) (Name cur) (ExternalID cur) (Namespace cur)
             (AccessMode cur) s (MountOptions cur) (PluginID cur)
             (CreateIndex cur) (ModifyIndex cur))
    end
  else if equal_fold k "MountOptions" then
    match mount_options_field v (MountOptions cur) with
    | inl e => inl e
    | inr m =>
      inr (mk (ID cur) (Name cur) (ExternalID cur) (Namespace cur)
             (AccessMode cur) (AttachmentMode cur) m (PluginID cur)
             (CreateIndex cur) (ModifyIndex cur))
    end
  else if equal_fold k "PluginID" then
    match string_field "CSIVolume.PluginID" "string" v (PluginID cur) with
    | inl e => inl e
    | inr s =>
      inr (mk (ID cur) (Name cur) (ExternalID cur) (Namespace cur)
             (AccessMode cur) (AttachmentMode cur) (MountOptions cur) s
             (CreateIndex cur) (ModifyIndex cur))
    end
  else if equal_fold k "CreateIndex" then
    match uint64_field "CSIVolume.CreateIndex" v (CreateIndex cur) with
    | inl e => inl e
    | inr n =>
      inr (mk (ID cur) (Name cur) (ExternalID cur) (Namespace cur)
             (AccessMode cur) (AttachmentMode cur) (MountOptions cur)
             (PluginID cur) n (ModifyIndex cur))
    end
  else if equal_fold k "ModifyIndex" then
    match uint64_field "CSIVolume.ModifyIndex" v (ModifyIndex cur) with
    | inl e => inl e
    | inr n =>
      inr (mk (ID cur) (Name cur) (ExternalID cur) (Namespace cur)
             (AccessMode cur) (AttachmentMode cur) (MountOptions cur)
             (PluginID cur) (CreateIndex cur) n)
    end
  else inr cur.

(** The value of a document as a [CSIVolume], starting from [cur]. *)
Definition volume_of_value (v : value) (cur : CSIVolume.t)
  : error + CSIVolume.t :=
  match v with
  | Object ms => members volume_member ms cur
  | Null => inr cur
  | _ => inl (value_error (kind_name v) "api.CSIVolume")
  end.

(** The value of a document as a [map[string]json.RawMessage]: every key
    with the bytes of its value, a later duplicate replacing an earlier
    one. *)
Definition raw_messages_of_value (v : value) : error + gmap string string :=
  match v with
  | Object ms =>
    inr (foldl (fun m kv => <[kv.1 := kv.2.1]> m) (∅ : gmap string string) ms)
  | Null => inr ∅
  | _ => inl (value_error (kind_name v) "map[string]json.RawMessage")
  end.
End Decode.

(** [json.Unmarshal(data, &root)] with [root] a nil
    [map[string]json.RawMessage]. *)
Definition Unmarshal_RawMessages (data : string) : error + gmap string string :=
  match Json.parse data with
  | inl e => inl e
  | inr v => Decode.raw_messages_of_value v
  end.

(** [json.Unmarshal(data, &volume)] with [volume] a zero [api.CSIVolume]. *)
Definition Unmarshal_CSIVolume (data : string) : error + CSIVolume.t :=
  match Json.parse data with
  | inl e => inl e
  | inr v => Decode.volume_of_value v CSIVolume.zero
  end.

(** ** The spec parser *)

Definition parseJSONVolumespec (raw : string)
  : option CSIVolume.t * option error :=
  match Unmarshal_RawMessages raw with
  | inl err => (None, Some err)
  | inr root =>
    let jobBytes :=
      match root !! "Job" with
      | Some b => b
      | None => raw   (* parse the input as is if there is no "Job" root *)
      end in
    match Unmarshal_CSIVolume jobBytes with
    | inl err => (None, Some err)
    | inr volume => (Some volume, None)
    end
  end.

(** [volume == nil || reflect.DeepEqual(volume, &api.CSIVolume{})] *)
Definition is_empty_volume (volume : option CSIVolume.t) : bool :=
  match volume with
  | None => true
  | Some v => bool_decide (v = CSIVolume.zero)
  end.

Definition parseVolumespec (raw : string) (is_json : bool)
  : option CSIVolume.t * option error :=
  if is_json then
    let '(volume, err) := parseJSONVolumespec raw in
    match err with
    | Some e => (None, Some ("error parsing jobspec: " +:+ e))
    | None =>
      if is_empty_volume volume then
        (None,
         Some "error parsing volumespec: input JSON is not a valid Nomad volumespec")
      else (volume, None)
    end
  else (None, Some "error parsing jobspec: no json string").

(** The text of [j] inside the envelope: an object whose only member,
    "Job", has the text [j] as its value. *)
Definition envelope (j : string) : string := dq "{'Job': " +:+ j +:+ "}".

(** ** Effects: local state, the history of remote calls, and panics *)

(** A call on the remote API client, with its arguments. *)
Inductive Call :=
| CallRegister (vol : option CSIVolume.t) (namespace : string)
| CallDeregister (id namespace : string)
| CallInfo (id namespace : string)
| CallEvaluationInfo (id : string)
| CallDeploymentInfo (id : string).

(** The client: what each call answers after the calls made so far.

    Modelled from the spec: the client library is not part of this package;
    section 6 of the specification gives [Register(record, namespace) ->
    record | error], so the first component of the answer of [Register],
    which the source discards, is typed as a record. *)
Record Client := {
  Register : list Call -> option CSIVolume.t -> string
             -> option CSIVolume.t * option error;
  Deregister : list Call -> string -> string -> option error;
  Info : list Call -> string -> string -> error + CSIVolume.t;
  EvaluationInfo : list Call -> string -> error + Evaluation.t;
  DeploymentInfo : list Call -> string -> error + Deployment.t
}.

Inductive outcome (A : Type) :=
| Return (a : A)
| Panic (msg : string).
Arguments Return {A} a.
Arguments Panic {A} msg.

(** A computation over a local state [L] (the attribute store, or the
    variables a closure captured) and the history of remote calls. *)
Definition M (L A : Type) : Type := L * list Call -> outcome A * (L * list Call).

Definition ret {L A} (a : A) : M L A := fun s => (Return a, s).

Definition bind {L A B} (m : M L A) (k : A -> M L B) : M L B :=
  fun s =>
    match m s with
    | (Return a, s') => k a s'
    | (Panic msg, s') => (Panic msg, s')
    end.

Declare Scope go_scope.
Delimit Scope go_scope with go.
Notation "x <- m ;; k" := (bind m (fun x => k))
  (at level 100, m at next level, right associativity) : go_scope.
Notation "m ;; k" := (bind m (fun _ => k))
  (at level 100, right associativity) : go_scope.

Definition gets {L A} (f : L -> A) : M L A := fun s => (Return (f s.1), s).
Definition modify {L} (f : L -> L) : M L unit := fun s => (Return tt, (f s.1, s.2)).

(** Reading a field through a pointer. *)
Definition deref {L A} (p : option A) : M L A :=
  fun s =>
    match p with
    | Some a => (Return a, s)
    | None => (Panic "invalid memory address or nil pointer dereference", s)
    end.

(** One remote call: the client answers from the history, and the call
    joins the history. *)
Definition remote {L A} (c : Call) (answer : list Call -> A) : M L A :=
  fun s => (Return (answer s.2), (s.1, s.2 ++ [c])).

Section RemoteCalls.
Context {L : Type} (client : Client).

Definition CSIVolumes_Register (vol : option CSIVolume.t) (ns : string)
  : M L (option CSIVolume.t * option error) :=
  remote (CallRegister vol ns) (fun h => Register client h vol ns).

Definition CSIVolumes_Deregister (id ns : string) : M L (option error) :=
  remote (CallDeregister id ns) (fun h => Deregister client h id ns).

Definition CSIVolumes_Info (id ns : string) : M L (error + CSIVolume.t) :=
  remote (CallInfo id ns) (fun h => Info client h id ns).

Definition Evaluations_Info (id : string) : M L (error + Evaluation.t) :=
  remote (CallEvaluationInfo id) (fun h => EvaluationInfo client h id).

Definition Deployments_Info (id : string) : M L (error + Deployment.t) :=
  remote (CallDeploymentInfo id) (fun h => DeploymentInfo client h id).
End RemoteCalls.

(** ** The attribute store

    Modelled from the spec: the plugin SDK is not part of this package; the
    specification (sections 1 and 6) gives it as a store with typed get and
    set, a new and an old value per attribute while planning, and the marks
    "to be computed after apply" and "forces replacement".  Every key the
    source reads has the type the source asserts for it, and a read gives
    the value stored or, when none is stored, the zero value of the type: a
    default the schema declares is part of a state only once it has been
    stored there.  What the SDK does with a key its schema does not declare
    (the unchecked type assertions of the source then fail) is not
    modelled. *)

Record Attrs := {
  strings : gmap string string;
  bools : gmap string bool;
  mounts : gmap string (option CSIMountOptions.t)
}.

Definition attr_string (a : Attrs) (k : string) : string :=
  default "" (strings a !! k).
Definition attr_bool (a : Attrs) (k : string) : bool :=
  default false (bools a !! k).

Definition set_string (k v : string) (a : Attrs) : Attrs :=
  {| strings := <[k := v]> (strings a); bools := bools a; mounts := mounts a |}.
Definition set_mount (k : string) (v : option CSIMountOptions.t) (a : Attrs) : Attrs :=
  {| strings := strings a; bools := bools a; mounts := <[k := v]> (mounts a) |}.

(** [schema.ResourceData] *)
Record ResourceData := {
  rd_id : string;
  rd_attrs : Attrs
}.

Module RD.
Definition Id : M ResourceData string := gets rd_id.
Definition SetId (v : string) : M ResourceData unit :=
  modify (fun d => {| rd_id := v; rd_attrs := rd_attrs d |}).
Definition GetString (k : string) : M ResourceData string :=
  gets (fun d => attr_string (rd_attrs d) k).
Definition GetBool (k : string) : M ResourceData bool :=
  gets (fun d => attr_bool (rd_attrs d) k).
Definition SetString (k v : string) : M ResourceData unit :=
  modify (fun d => {| rd_id := rd_id d; rd_attrs := set_string k v (rd_attrs d) |}).
Definition SetMount (k : string) (v : option CSIMountOptions.t)
  : M ResourceData unit :=
  modify (fun d => {| rd_id := rd_id d; rd_attrs := set_mount k v (rd_attrs d) |}).
End RD.

(** [schema.ResourceDiff]: the prior state, the values staged for the new
    state, and the marks of the plan. *)
Record ResourceDiff := {
  diff_id : string;
  diff_old : Attrs;
  diff_new : Attrs;
  diff_unknown : gset string;
  diff_computed : gset string;
  diff_forcenew : gset string
}.

Definition diff_string (d : ResourceDiff) (k : string) : string :=
  default (attr_string (diff_old d) k) (strings (diff_new d) !! k).
Definition diff_bool (d : ResourceDiff) (k : string) : bool :=
  default (attr_bool (diff_old d) k) (bools (diff_new d) !! k).

Module Diff.
Definition Id : M ResourceDiff string := gets diff_id.
Definition NewValueKnown (k : string) : M ResourceDiff bool :=
  gets (fun d => bool_decide (k ∉ diff_unknown d)).
Definition GetChange (k : string) : M ResourceDiff (string * string) :=
  gets (fun d => (attr_string (diff_old d) k, diff_string d k)).
Definition GetString (k : string) : M ResourceDiff string :=
  gets (fun d => diff_string d k).
Definition GetBool (k : string) : M ResourceDiff bool :=
  gets (fun d => diff_bool d k).
Definition SetNew (k v : string) : M ResourceDiff unit :=
  modify (fun d =>
    {| diff_id := diff_id d; diff_old := diff_old d;
       diff_new := set_string k v (diff_new d);
       diff_unknown := diff_unknown d; diff_computed := diff_computed d;
       diff_forcenew := diff_forcenew d |}).
Definition SetNewComputed (k : string) : M ResourceDiff unit :=
  modify (fun d =>
    {| diff_id := diff_id d; diff_old := diff_old d; diff_new := diff_new d;
       diff_unknown := diff_unknown d;
       diff_computed := {[k]} ∪ diff_computed d;
       diff_forcenew := diff_forcenew d |}).
Definition ForceNew (k : string) : M ResourceDiff unit :=
  modify (fun d =>
    {| diff_id := diff_id d; diff_old := diff_old d; diff_new := diff_new d;
       diff_unknown := diff_unknown d; diff_computed := diff_computed d;
       diff_forcenew := {[k]} ∪ diff_forcenew d |}).
End Diff.

Local Open Scope go_scope.

(** ** The reconciler *)

Definition default_namespace (ns : string) : string :=
  if String.eqb ns "" then "default" else ns.

Definition resourceCSIVolumeRead (client : Client) : M ResourceData (option error) :=
  id <- RD.Id;;
  ns <- RD.GetString "namespace";;
  let ns := default_namespace ns in
  r <- CSIVolumes_Info client id ns;;
  match r with
  | inl err =>
    if Contains err "404" then
      RD.SetId "";;
      ret None
    else ret (Some ("error checking for job: " +:+ err))
  | inr volume =>
    RD.SetString "id" (CSIVolume.ID volume);;
    RD.SetString "name" (CSIVolume.Name volume);;
    RD.SetString "external_id" (CSIVolume.ExternalID volume);;
    RD.SetString "plugin_id" (CSIVolume.PluginID volume);;
    RD.SetString "access_mode" (CSIVolume.AccessMode volume);;
    RD.SetString "attachment_mode" (CSIVolume.AttachmentMode volume);;
    RD.SetMount "mount_options" (CSIVolume.MountOptions volume);;
    RD.SetString "namespace" (CSIVolume.Namespace volume);;
    (if negb (CSIVolume.ModifyIndex volume =? 0)%N
     then RD.SetString "modify_index" (FormatUint (CSIVolume.ModifyIndex volume))
     else RD.SetString "modify_index" "0");;
    ret None
  end.

Definition resourceVolumeRegister (client : Client) : M ResourceData (option error) :=
  volumespecRaw <- RD.GetString "volumespec";;
  is_json <- RD.GetBool "json";;
  let '(volume, err) := parseVolumespec volumespecRaw is_json in
  match err with
  | Some e => ret (Some e)
  | None =>
    ns <- RD.GetString "namespace";;
    resp <- CSIVolumes_Register client volume ns;;
    match resp.2 with
    | Some e => ret (Some ("error applying volumespec: " +:+ e))
    | None =>
      v_id <- deref volume;;
      RD.SetId (CSIVolume.ID v_id);;
      v_name <- deref volume;;
      RD.SetString "name" (CSIVolume.Name v_name);;
      v_ns <- deref volume;;
      RD.SetString "namespace" (CSIVolume.Namespace v_ns);;
      v_mi <- deref volume;;
      RD.SetString "modify_index" (FormatUint (CSIVolume.ModifyIndex v_mi));;
      resourceCSIVolumeRead client   (* populate other computed attributes *)
    end
  end.

Definition resourceVolumeDeregister (client : Client) : M ResourceData (option error) :=
  deregister_on_destroy <- RD.GetBool "deregister_on_destroy";;
  if negb deregister_on_destroy then ret None   (* disabled: do nothing *)
  else
    id <- RD.Id;;
    ns <- RD.GetString "namespace";;
    let ns := default_namespace ns in
    err <- CSIVolumes_Deregister client id ns;;
    match err with
    | Some e => ret (Some ("error deregistering job: " +:+ e))
    | None => ret None
    end.

(** ** The planner *)

Definition resourceVolumeCustomizeDiff : M ResourceDiff (option error) :=
  known <- Diff.NewValueKnown "volumespec";;
  if negb known then
    Diff.SetNewComputed "id";;
    Diff.SetNewComputed "modify_index";;
    Diff.SetNewComputed "namespace";;
    Diff.SetNewComputed "type";;
    Diff.SetNewComputed "name";;
    Diff.SetNewComputed "external_id";;
    Diff.SetNewComputed "plugin_id";;
    Diff.SetNewComputed "access_mode";;
    Diff.SetNewComputed "attachment_mode";;
    Diff.SetNewComputed "mount_options";;
    ret None
  else
    specs <- Diff.GetChange "volumespec";;
    let '(oldSpecRaw, newSpecRaw) := specs in
    if String.eqb oldSpecRaw newSpecRaw then ret None   (* nothing to do *)
    else
      is_json <- Diff.GetBool "json";;
      let '(volume, err) := parseVolumespec newSpecRaw is_json in
      match err with
      | Some e => ret (Some e)
      | None =>
        v <- deref volume;;
        let v :=
          if String.eqb (CSIVolume.Namespace v) ""
          then CSIVolume.with_Namespace "default" v else v in
        Diff.SetNew "id" (CSIVolume.ID v);;
        Diff.SetNew "name" (CSIVolume.Name v);;
        ns <- Diff.GetString "namespace";;
        (if negb (String.eqb ns (CSIVolume.Namespace v)) then
           Diff.SetNew "namespace" (CSIVolume.Namespace v);;
           Diff.ForceNew "namespace"
         else
           id <- Diff.Id;;
           if negb (String.eqb id (CSIVolume.ID v)) then
             deregister_on_id_change <- Diff.GetBool "deregister_on_id_change";;
             if deregister_on_id_change then
               Diff.ForceNew "id";;
               Diff.ForceNew "name"
             else ret tt
           else ret tt);;
        Diff.SetNewComputed "modify_index";;
        Diff.SetNewComputed "allocation_ids";;
        ret None
      end.

(** ** The completion poller

    [deploymentStateRefreshFunc] returns a closure over two variables; the
    closure is a computation over these variables, and
    [deploymentStateRefreshFunc_init] gives their values when the closure is
    created. *)

Record RefreshVars := {
  evalId : string;
  deploymentId : string
}.

Definition deploymentStateRefreshFunc_init (initialEvalId : string) : RefreshVars :=
  {| evalId := initialEvalId; deploymentId := "" |}.

(** What a [resource.StateRefreshFunc] returns. *)
Record Refresh := {
  refresh_result : option Deployment.t;
  refresh_state : string;
  refresh_err : option error
}.

Definition deploymentStateRefreshFunc (client : Client) : M RefreshVars Refresh :=
  deploymentId_now <- gets deploymentId;;
  if String.eqb deploymentId_now "" then
    (* monitor the eval *)
    evalId_now <- gets evalId;;
    r <- Evaluations_Info client evalId_now;;
    match r with
    | inl err => ret (Build_Refresh None "" (Some err))
    | inr eval =>
      if String.eqb (Evaluation.Status eval) "complete" then
        (* monitor the next eval in the chain, if present *)
        state <-
          (if negb (String.eqb (Evaluation.NextEval eval) "") then
             modify (fun c => {| evalId := Evaluation.NextEval eval;
                                 deploymentId := deploymentId c |});;
             ret "monitoring_evaluation"
           else if negb (String.eqb (Evaluation.DeploymentID eval) "") then
             modify (fun c => {| evalId := evalId c;
                                 deploymentId := Evaluation.DeploymentID eval |});;
             ret "monitoring_deployment"
           else ret "job_scheduled_without_deployment");;
        ret (Build_Refresh None state None)
      else if String.eqb (Evaluation.Status eval) "failed"
              || String.eqb (Evaluation.Status eval) "cancelled" then
        ret (Build_Refresh None ""
               (Some ("evaluation failed: " +:+ Evaluation.StatusDescription eval)))
      else ret (Build_Refresh None "monitoring_evaluation" None)
    end
  else
    (* monitor the deployment *)
    r <- Deployments_Info client deploymentId_now;;
    match r with
    | inl err => ret (Build_Refresh None "" (Some err))
    | inr deployment =>
      if String.eqb (Deployment.Status deployment) "successful" then
        ret (Build_Refresh (Some deployment) "deployment_successful" None)
      else if String.eqb (Deployment.Status deployment) "failed"
              || String.eqb (Deployment.Status deployment) "cancelled" then
        ret (Build_Refresh (Some deployment) ""
               (Some ("deployment '" +:+ Deployment.ID deployment
                      +:+ "' terminated with status '"
                      +:+ Deployment.Status deployment
                      +:+ "': '" +:+ Deployment.StatusDescription deployment
                      +:+ "'")))
      else
        (* don't overwhelm the API server *)
        ret (Build_Refresh (Some deployment) "monitoring_deployment" None)
    end.

(** *** The poller as the specification describes it

    The states the specification names, the two transition relations it
    gives, and the reading of what the closure returns, together with the
    variables it leaves, as one of these states. *)

Inductive PollState :=
| monitoring_evaluation (id : string)
| monitoring_deployment (id : string)
| job_scheduled_without_deployment
| deployment_successful (d : Deployment.t)
| poll_failed (err : error).

Inductive evaluation_step (cur : string) (e : Evaluation.t) : PollState -> Prop :=
| eval_next :
    Evaluation.Status e = "complete" -> Evaluation.NextEval e <> "" ->
    evaluation_step cur e (monitoring_evaluation (Evaluation.NextEval e))
| eval_deployment :
    Evaluation.Status e = "complete" -> Evaluation.NextEval e = "" ->
    Evaluation.DeploymentID e <> "" ->
    evaluation_step cur e (monitoring_deployment (Evaluation.DeploymentID e))
| eval_no_deployment :
    Evaluation.Status e = "complete" -> Evaluation.NextEval e = "" ->
    Evaluation.DeploymentID e = "" ->
    evaluation_step cur e job_scheduled_without_deployment
| eval_failed msg :
    Evaluation.Status e = "failed" \/ Evaluation.Status e = "cancelled" ->
    Contains msg (Evaluation.StatusDescription e) = true ->
    evaluation_step cur e (poll_failed msg)
| eval_other :
    Evaluation.Status e <> "complete" -> Evaluation.Status e <> "failed" ->
    Evaluation.Status e <> "cancelled" ->
    evaluation_step cur e (monitoring_evaluation cur).

Inductive deployment_step (cur : string) (d : Deployment.t) : PollState -> Prop :=
| deployment_done :
    Deployment.Status d = "successful" ->
    deployment_step cur d (deployment_successful d)
| deployment_failed msg :
    Deployment.Status d = "failed" \/ Deployment.Status d = "cancelled" ->
    Contains msg (Deployment.ID d) = true ->
    Contains msg (Deployment.Status d) = true ->
    Contains msg (Deployment.StatusDescription d) = true ->
    deployment_step cur d (poll_failed msg)
| deployment_other :
    Deployment.Status d <> "successful" -> Deployment.Status d <> "failed" ->
    Deployment.Status d <> "cancelled" ->
    deployment_step cur d (monitoring_deployment cur).

(** The state a returned triple stands for.  A monitoring state is read
    from the captured variables, since these decide what the next call
    monitors; the label returned has to agree with them. *)
Definition observe (r : Refresh) (vars : RefreshVars) : option PollState :=
  match refresh_err r with
  | Some e => Some (poll_failed e)
  | None =>
    if String.eqb (refresh_state r) "monitoring_evaluation" then
      if String.eqb (deploymentId vars) ""
      then Some (monitoring_evaluation (evalId vars)) else None
    else if String.eqb (refresh_state r) "monitoring_deployment" then
      if String.eqb (deploymentId vars) ""
      then None else Some (monitoring_deployment (deploymentId vars))
    else if String.eqb (refresh_state r) "job_scheduled_without_deployment" then
      Some job_scheduled_without_deployment
    else if String.eqb (refresh_state r) "deployment_successful" then
      option_map deployment_successful (refresh_result r)
    else None
  end.

(** ** Sample data and derived states

    Clients with fixed answers, stored states and plans used as concrete
    inputs, and the states the operations are shown to reach. *)

Definition vol_foo : CSIVolume.t := CSIVolume.mk "foo" "" "" "" "" "" None "" 0 0.
Definition vol_bar : CSIVolume.t := CSIVolume.mk "bar" "" "" "" "" "" None "" 0 0.

(** A client with one fixed answer per operation on volumes, which knows
    no evaluation and no deployment. *)
Definition volume_client (register : option CSIVolume.t * option error)
  (deregister : option error) (info : error + CSIVolume.t) : Client :=
  {| Register := fun _ _ _ => register;
     Deregister := fun _ _ _ => deregister;
     Info := fun _ _ _ => info;
     EvaluationInfo := fun _ _ => inl "Unexpected response code: 404 (eval not found)";
     DeploymentInfo := fun _ _ => inl "Unexpected response code: 404 (deployment not found)" |}.


Definition not_found : error := "Unexpected response code: 404 (volume not found)".

Definition quiet_client (deregister_error : option error) : Client :=
  volume_client (None, None) deregister_error (inl not_found).

Definition stored (id : string) (ss : list (string * string))
  (bs : list (string * bool)) : ResourceData :=
  {| rd_id := id;
     rd_attrs := {| strings := list_to_map ss; bools := list_to_map bs;
                    mounts := ∅ |} |}.

Definition with_id (id : string) (d : ResourceData) : ResourceData :=
  {| rd_id := id; rd_attrs := rd_attrs d |}.

(** The attributes read writes for a record it found. *)
Definition read_attrs (volume : CSIVolume.t) (a : Attrs) : Attrs :=
  set_string "modify_index" (FormatUint (CSIVolume.ModifyIndex volume))
    (set_string "namespace" (CSIVolume.Namespace volume)
       (set_mount "mount_options" (CSIVolume.MountOptions volume)
          (set_string "attachment_mode" (CSIVolume.AttachmentMode volume)
             (set_string "access_mode" (CSIVolume.AccessMode volume)
                (set_string "plugin_id" (CSIVolume.PluginID volume)
                   (set_string "external_id" (CSIVolume.ExternalID volume)
                      (set_string "name" (CSIVolume.Name volume)
                         (set_string "id" (CSIVolume.ID volume) a)))))))).

(** Whether the attributes of [d] are those of the record [r], as read
    stores a record. *)
Definition stores (d : ResourceData) (r : CSIVolume.t) : bool :=
  let a := rd_attrs d in
  String.eqb (attr_string a "id") (CSIVolume.ID r)
  && String.eqb (attr_string a "name") (CSIVolume.Name r)
  && String.eqb (attr_string a "external_id") (CSIVolume.ExternalID r)
  && String.eqb (attr_string a "plugin_id") (CSIVolume.PluginID r)
  && String.eqb (attr_string a "access_mode") (CSIVolume.AccessMode r)
  && String.eqb (attr_string a "attachment_mode") (CSIVolume.AttachmentMode r)
  && bool_decide (mounts a !! "mount_options" = Some (CSIVolume.MountOptions r))
  && String.eqb (attr_string a "namespace") (CSIVolume.Namespace r)
  && String.eqb (attr_string a "modify_index")
       (FormatUint (CSIVolume.ModifyIndex r)).

(** The state register leaves when the remote registration succeeded, just
    before it reads the volume back: identity, name, namespace and modify
    index of the desired record. *)
Definition registered (volume : CSIVolume.t) (d : ResourceData) : ResourceData :=
  {| rd_id := CSIVolume.ID volume;
     rd_attrs :=
       set_string "modify_index" (FormatUint (CSIVolume.ModifyIndex volume))
         (set_string "namespace" (CSIVolume.Namespace volume)
            (set_string "name" (CSIVolume.Name volume) (rd_attrs d))) |}.

Definition vol_a : CSIVolume.t :=
  CSIVolume.mk "vol-a" "a" "" "" "" "" None "" 0 0.
Definition vol_a_registered : CSIVolume.t :=
  CSIVolume.mk "vol-a" "a" "ext-1" "default" "" "" None "ebs" 3 7.
Definition vol_a_read : CSIVolume.t :=
  CSIVolume.mk "vol-a" "a" "ext-1" "default" "" "" None "ebs" 3 9.

Definition apply_state : ResourceData :=
  stored "" [("volumespec", dq "{'ID': 'vol-a', 'Name': 'a'}")] [("json", true)].

(** The plan after id and name of the desired record have been staged. *)
Definition staged (volume : CSIVolume.t) (d : ResourceDiff) : ResourceDiff :=
  {| diff_id := diff_id d; diff_old := diff_old d;
     diff_new := set_string "name" (CSIVolume.Name volume)
                   (set_string "id" (CSIVolume.ID volume) (diff_new d));
     diff_unknown := diff_unknown d; diff_computed := diff_computed d;
     diff_forcenew := diff_forcenew d |}.

Definition planning (id : string) (old new : list (string * string))
  (flags : list (string * bool)) : ResourceDiff :=
  {| diff_id := id;
     diff_old := {| strings := list_to_map old; bools := list_to_map flags;
                    mounts := ∅ |};
     diff_new := {| strings := list_to_map new; bools := ∅; mounts := ∅ |};
     diff_unknown := ∅; diff_computed := ∅; diff_forcenew := ∅ |}.

(** Observed: volume "vol-a" in namespace "ns1"; desired: volume "vol-b" in
    namespace "ns2"; replacement on id change is asked for. *)
Definition plan_both_change : ResourceDiff :=
  planning "vol-a"
    [("volumespec", dq "{'ID': 'vol-a', 'Namespace': 'ns1'}"); ("namespace", "ns1")]
    [("volumespec", dq "{'ID': 'vol-b', 'Namespace': 'ns2'}")]
    [("json", true); ("deregister_on_id_change", true)].

Definition vol_b_ns2 : CSIVolume.t :=
  CSIVolume.mk "vol-b" "" "" "ns2" "" "" None "" 0 0.

(** Observed "vol-a", desired "vol-b", both in namespace "default". *)
Definition plan_rename (replace : bool) : ResourceDiff :=
  planning "vol-a"
    [("volumespec", dq "{'ID': 'vol-a'}"); ("namespace", "default")]
    [("volumespec", dq "{'ID': 'vol-b'}")]
    [("json", true); ("deregister_on_id_change", replace)].

Definition vol_b : CSIVolume.t := CSIVolume.mk "vol-b" "" "" "" "" "" None "" 0 0.

(** A client that knows evaluations and deployments by id, and no volume. *)
Definition poll_client (evals : string -> error + Evaluation.t)
  (deployments : string -> error + Deployment.t) : Client :=
  {| Register := fun _ _ _ => (None, None);
     Deregister := fun _ _ _ => None;
     Info := fun _ _ _ => inl not_found;
     EvaluationInfo := fun _ id => evals id;
     DeploymentInfo := fun _ id => deployments id |}.

(** An evaluation chain "e1" -> "e2" that ends in deployment "d1". *)
Definition eval_e1 : Evaluation.t := Evaluation.mk "e1" "complete" "" "e2" "".
Definition eval_e2 : Evaluation.t := Evaluation.mk "e2" "complete" "" "" "d1".
Definition deployment_d1 (status : string) : Deployment.t :=
  Deployment.mk "d1" status "Deployment is running".

Definition chain_client (status : string) : Client :=
  poll_client
    (fun id => if String.eqb id "e1" then inr eval_e1
               else if String.eqb id "e2" then inr eval_e2
               else inl "Unexpected response code: 404 (eval not found)")
    (fun id => if String.eqb id "d1" then inr (deployment_d1 status)
               else inl "Unexpected response code: 404 (deployment not found)").

(** ** The data source

    [dataSourceCSIVolumeRead] works on a store of the schema
    [dataSourceCSIVolume] declares: strings, the integers "external_id",
    "create_index" and "modify_index", and the map "mount_options";
    "default" is the declared default of "namespace", which applies since
    the store of a data source is filled from its configuration.

    The plugin SDK is not part of this package.  Its writer converts a value
    to the declared type of its key and refuses it if it cannot; the source
    ignores the refusal.  Three
    conversions occur: a string for an integer key and a pointer to a struct
    for a map key are refused and nothing is stored; a [uint64] for an
    integer key is stored as the [int] of the same 64 bits. *)

Record DataSourceData := {
  ds_rd : ResourceData;
  ds_numbers : gmap string Z
}.

(** The defaults the schema of [dataSourceCSIVolume] declares. *)
Definition ds_schema_default_string (k : string) : string :=
  if String.eqb k "namespace" then "default" else "".

Definition ds_string (d : DataSourceData) (k : string) : string :=
  default (ds_schema_default_string k) (strings (rd_attrs (ds_rd d)) !! k).

(** [int(n)] for a [uint64] [n]: the two's complement reading of its 64
    bits. *)
Definition int_of_uint64 (n : N) : Z :=
  let z := (Z.of_N n mod 2 ^ 64)%Z in
  if (z <? 2 ^ 63)%Z then z else (z - 2 ^ 64)%Z.

Module DS.
Definition GetString (k : string) : M DataSourceData string :=
  gets (fun d => ds_string d k).
Definition SetId (v : string) : M DataSourceData unit :=
  modify (fun d =>
    {| ds_rd := {| rd_id := v; rd_attrs := rd_attrs (ds_rd d) |};
       ds_numbers := ds_numbers d |}).
(** A string for a string key. *)
Definition SetString (k v : string) : M DataSourceData unit :=
  modify (fun d =>
    {| ds_rd := {| rd_id := rd_id (ds_rd d);
                   rd_attrs := set_string k v (rd_attrs (ds_rd d)) |};
       ds_numbers := ds_numbers d |}).
(** A string for an integer key: refused. *)
Definition SetIntOfString (k v : string) : M DataSourceData unit := ret tt.
(** A pointer to a struct for a map key: refused. *)
Definition SetMapOfPointer (k : string) (v : option CSIMountOptions.t)
  : M DataSourceData unit := ret tt.
(** A [uint64] for an integer key. *)
Definition SetIntOfUint64 (k : string) (n : N) : M DataSourceData unit :=
  modify (fun d =>
    {| ds_rd := ds_rd d;
       ds_numbers := <[k := int_of_uint64 n]> (ds_numbers d) |}).
End DS.

Section DataSource.
(** The text [%#v] prints for an error depends on the dynamic type of the
    error, which the client library decides; it is a parameter. *)
Variable gosyntax : error -> string.

Definition dataSourceCSIVolumeRead (client : Client)
  : M DataSourceData (option error) :=
  id <- DS.GetString "volume_id";;
  ns <- DS.GetString "namespace";;
  let ns := default_namespace ns in
  r <- CSIVolumes_Info client id ns;;
  match r with
  | inl err =>
    if Contains err "404" then ret (Some err)
    else ret (Some ("error checking for job: " +:+ gosyntax err))
  | inr volume =>
    DS.SetId (CSIVolume.ID volume);;
    DS.SetString "volume_id" (CSIVolume.ID volume);;
    DS.SetString "namespace" (CSIVolume.Namespace volume);;
    DS.SetString "name" (CSIVolume.Name volume);;
    DS.SetString "type" "csi";;
    DS.SetIntOfString "external_id" (CSIVolume.ExternalID volume);;
    DS.SetString "plugin_id" (CSIVolume.PluginID volume);;
    DS.SetString "access_mode" (CSIVolume.AccessMode volume);;
    DS.SetString "attachment_mode" (CSIVolume.AttachmentMode volume);;
    DS.SetMapOfPointer "mount_options" (CSIVolume.MountOptions volume);;
    DS.SetIntOfUint64 "create_index" (CSIVolume.CreateIndex volume);;
    DS.SetIntOfUint64 "modify_index" (CSIVolume.ModifyIndex volume);;
    ret None
  end.
End DataSource.

(** ** Suppressing differences of the spec text

    [volumespecDiffSuppress] reads both texts with [jobspec.Parse], of the
    package [core/jobspec] of this repository, and normalises the results
    with [Canonicalize] of the client library; neither is part of the files
    at hand, so both are parameters, as is the type of what they work on.
    [reflect.DeepEqual] on the two results is equality. *)
Section DiffSuppress.
Context {Job : Type} `{EqDecision Job}.
Variable jobspec_Parse : string -> error + Job.
Variable Canonicalize : Job -> Job.

Definition volumespecDiffSuppress (k old new : string) (d : ResourceData) : bool :=
  match jobspec_Parse old with
  | inl _ => false
  | inr oldJob =>
    match jobspec_Parse new with
    | inl _ => false
    | inr newJob => bool_decide (Canonicalize oldJob = Canonicalize newJob)
    end
  end.
End DiffSuppress.

(** ** States the planner reaches *)

(** The plan when the desired text is not known yet. *)
Definition all_computed (d : ResourceDiff) : ResourceDiff :=
  {| diff_id := diff_id d; diff_old := diff_old d; diff_new := diff_new d;
     diff_unknown := diff_unknown d;
     diff_computed :=
       {["mount_options"]} ∪ ({["attachment_mode"]} ∪ ({["access_mode"]} ∪
       ({["plugin_id"]} ∪ ({["external_id"]} ∪ ({["name"]} ∪ ({["type"]} ∪
       ({["namespace"]} ∪ ({["modify_index"]} ∪ ({["id"]} ∪ diff_computed d)))))))));
     diff_forcenew := diff_forcenew d |}.

(** The plan for a desired record that parsed. *)
Definition planned (volume : CSIVolume.t) (d : ResourceDiff) : ResourceDiff :=
  let ns := default_namespace (CSIVolume.Namespace volume) in
  let moved := negb (String.eqb (diff_string d "namespace") ns) in
  let renamed := negb (String.eqb (diff_id d) (CSIVolume.ID volume)) in
  {| diff_id := diff_id d; diff_old := diff_old d;
     diff_new :=
       if moved then set_string "namespace" ns (diff_new (staged volume d))
       else diff_new (staged volume d);
     diff_unknown := diff_unknown d;
     diff_computed := {["allocation_ids"]} ∪ ({["modify_index"]} ∪ diff_computed d);
     diff_forcenew :=
       if moved then {["namespace"]} ∪ diff_forcenew d
       else if renamed && diff_bool d "deregister_on_id_change"
            then {["name"]} ∪ ({["id"]} ∪ diff_forcenew d)
            else diff_forcenew d |}.

(** What one call of the poller fetches, by the variables it finds. *)
Definition refresh_call (vars : RefreshVars) : Call :=
  if String.eqb (deploymentId vars) "" then CallEvaluationInfo (evalId vars)
  else CallDeploymentInfo (deploymentId vars).

(** A stored state of the data source. *)
Definition ds_stored (ss : list (string * string)) : DataSourceData :=
  {| ds_rd := stored "" ss []; ds_numbers := ∅ |}.

Definition internal_error : error := "Unexpected response code: 500 (internal error)".

(** The state the data source stores for a record it found. *)
Definition ds_found (volume : CSIVolume.t) (d : DataSourceData) : DataSourceData :=
  {| ds_rd :=
       {| rd_id := CSIVolume.ID volume;
          rd_attrs :=
            set_string "attachment_mode" (CSIVolume.AttachmentMode volume)
              (set_string "access_mode" (CSIVolume.AccessMode volume)
                 (set_string "plugin_id" (CSIVolume.PluginID volume)
                    (set_string "type" "csi"
                       (set_string "name" (CSIVolume.Name volume)
                          (set_string "namespace" (CSIVolume.Namespace volume)
                             (set_string "volume_id" (CSIVolume.ID volume)
                                (rd_attrs (ds_rd d)))))))) |};
     ds_numbers :=
       <["modify_index" := int_of_uint64 (CSIVolume.ModifyIndex volume)]>
         (<["create_index" := int_of_uint64 (CSIVolume.CreateIndex volume)]>
            (ds_numbers d)) |}.

(** A record whose modify index is the largest [uint64], in namespace
    "ns2". *)
Definition vol_a_ns2 : CSIVolume.t :=
  CSIVolume.mk "vol-a" "a" "ext-1" "ns2" "" "" None "ebs" 3 18446744073709551615.

(** The record the text of [moving_state] parses to. *)
Definition vol_a_ns1 : CSIVolume.t :=
  CSIVolume.mk "vol-a" "" "" "ns1" "" "" None "" 0 0.

(** A state stored in namespace "ns0" whose spec asks for namespace "ns1",
    with deregistration on destroy stored as enabled. *)
Definition moving_state : ResourceData :=
  stored ""
    [("volumespec", dq "{'ID': 'vol-a', 'Namespace': 'ns1'}"); ("namespace", "ns0")]
    [("json", true); ("deregister_on_destroy", true)].

(** A stand-in for the parser of job texts, for sample runs: a text is a
    job when it is not empty; normalising a job drops its blanks. *)
Definition sample_Parse (s : string) : error + string :=
  if String.eqb s "" then inl "empty job" else inr s.

Fixpoint sample_Canonicalize (s : string) : string :=
  match s with
  | EmptyString => EmptyString
  | String c r =>
    if Ascii.eqb c " " then sample_Canonicalize r
    else String c (sample_Canonicalize r)
  end.

(** * Properties *)

(** ** Text *)

Lemma app_String c (a b : string) : String c a +:+ b = String c (a +:+ b).
Proof. reflexivity. Qed.

Lemma HasPrefix_app (p s : string) : HasPrefix (p +:+ s) p = true.
Proof.
  induction p as [|c p IH]; [reflexivity|].
  rewrite app_String. cbn. now rewrite Ascii.eqb_refl, IH.
Qed.

Lemma Contains_here (p s : string) : Contains (p +:+ s) p = true.
Proof.
  destruct p as [|c p].
  - destruct s; reflexivity.
  - rewrite app_String. cbn [Contains]. rewrite <- app_String.
    now rewrite HasPrefix_app.
Qed.

Lemma Contains_later (a s sub : string) :
  Contains s sub = true -> Contains (a +:+ s) sub = true.
Proof.
  intros H. induction a as [|c a IH]; [exact H|].
  rewrite app_String. cbn [Contains]. rewrite IH. apply orb_true_r.
Qed.

Lemma HasPrefix_refl (s : string) : HasPrefix s s = true.
Proof. induction s as [|c s IH]; [reflexivity|]. cbn. now rewrite Ascii.eqb_refl. Qed.

Lemma Contains_suffix (a s : string) : Contains (a +:+ s) s = true.
Proof.
  apply Contains_later. destruct s as [|c s]; [reflexivity|].
  cbn [Contains]. now rewrite HasPrefix_refl.
Qed.

Lemma Contains_infix (a p s : string) : Contains (a +:+ p +:+ s) p = true.
Proof. apply Contains_later, Contains_here. Qed.

(** ** The JSON reader *)

Module JsonFacts.
Import Json.
Local Open Scope char_scope.

(** *** White space *)

Lemma skip_ws_head s c t : skip_ws s = c :: t -> is_ws c = false.
Proof.
  induction s as [|a s IH]; cbn; [discriminate|].
  destruct (is_ws a) eqn:E; [exact IH|]. now intros [= <- <-].
Qed.

Lemma skip_ws_nonblank c s : is_ws c = false -> skip_ws (c :: s) = c :: s.
Proof. intros H. cbn. now rewrite H. Qed.

Lemma skip_ws_split s c t :
  skip_ws s = c :: t ->
  exists w, s = w ++ c :: t /\ skip_ws w = []
            /\ forall y, skip_ws (w ++ c :: y) = c :: y.
Proof.
  induction s as [|a s IH]; cbn; [discriminate|].
  destruct (is_ws a) eqn:E.
  - intros H. destruct (IH H) as (w & -> & Hb & Hw).
    exists (a :: w). split; [reflexivity|]. cbn. rewrite E. split; [exact Hb|].
    exact Hw.
  - intros [= <- <-]. exists []. split; [reflexivity|]. split; [reflexivity|].
    intros y. cbn. now rewrite E.
Qed.

Lemma skip_ws_blank_app s t : skip_ws s = [] -> skip_ws (s ++ t) = skip_ws t.
Proof.
  induction s as [|a s IH]; cbn; [reflexivity|].
  destruct (is_ws a); [exact IH | discriminate].
Qed.

Lemma skip_ws_length s : length (skip_ws s) <= length s.
Proof.
  induction s as [|a s IH]; cbn; [lia|]. destruct (is_ws a); cbn; lia.
Qed.

(** *** The bytes consumed *)

Lemma consumed_app (c r : bytes) : consumed (c ++ r) r = c.
Proof.
  unfold consumed. rewrite length_app.
  replace (length c + length r - length r) with (length c) by lia.
  now rewrite take_app_length.
Qed.

(** *** String literals *)

Lemma scan_string_local st acc :
  local (fun _ => True) (fun s => scan_string st s acc).
Proof.
  intros s. revert st acc.
  induction s as [|c s IH]; intros st acc b r; cbn; [discriminate|].
  (* the literal ends at this byte *)
  assert (Hend : forall tests : bool,
    (forall x, scan_string st (c :: x) acc = Ok (rev acc) x) ->
    Ok (rev acc) s = Ok b r ->
    exists c0, c :: s = c0 ++ r /\ c0 <> [] /\
      forall x, True -> scan_string st (c0 ++ x) acc = Ok b x).
  { intros _ Hx [= <- <-]. exists [c]. split; [reflexivity|].
    split; [discriminate|]. intros x _. apply Hx. }
  (* the literal goes on in state [st'] *)
  assert (Hstep : forall st' acc',
    (forall x, scan_string st (c :: x) acc = scan_string st' x acc') ->
    scan_string st' s acc' = Ok b r ->
    exists c0, c :: s = c0 ++ r /\ c0 <> [] /\
      forall x, True -> scan_string st (c0 ++ x) acc = Ok b x).
  { intros st' acc' Hx H. destruct (IH st' acc' b r H) as (c0 & -> & _ & Hc0).
    exists (c :: c0). split; [reflexivity|]. split; [discriminate|].
    intros x _. cbn [app]. rewrite Hx. now apply Hc0. }
  destruct st as [| |k].
  - destruct (Ascii.eqb c quote_char) eqn:Eq.
    { apply (Hend true). intros x. cbn. now rewrite Eq. }
    destruct (Ascii.eqb c "\") eqn:Eb.
    { apply Hstep. intros x. cbn. now rewrite Eq, Eb. }
    destruct (N_of_ascii c <? 32)%N eqn:El; [discriminate|].
    apply Hstep. intros x. cbn. now rewrite Eq, Eb, El.
  - destruct (is_simple_escape c) eqn:Es.
    { apply Hstep. intros x. cbn. now rewrite Es. }
    destruct (Ascii.eqb c "u") eqn:Eu; [|discriminate].
    apply Hstep. intros x. cbn. now rewrite Es, Eu.
  - destruct (is_hex c) eqn:Eh; [|discriminate].
    destruct k as [|k]; apply Hstep; intros x; cbn; now rewrite Eh.
Qed.

(** *** Number literals *)

Lemma is_digit19_digit c : is_digit19 c = true -> is_digit c = true.
Proof.
  unfold is_digit19, is_digit. rewrite !andb_true_iff, !N.leb_le. lia.
Qed.

Lemma zero_digit c : Ascii.eqb c "0" = true -> is_digit c = true.
Proof. intros H. apply Ascii.eqb_eq in H. now subst. Qed.

Lemma num_step_follow st c : num_char c = false -> num_step st c = None.
Proof.
  unfold num_char. rewrite !orb_false_iff. intros [[[Hd Hp] He] Hs].
  assert (H0 : Ascii.eqb c "0" = false).
  { destruct (Ascii.eqb c "0") eqn:E; [|reflexivity].
    apply zero_digit in E. congruence. }
  assert (H19 : is_digit19 c = false).
  { destruct (is_digit19 c) eqn:E; [|reflexivity].
    apply is_digit19_digit in E. congruence. }
  destruct st; cbn; now rewrite ?H0, ?H19, ?Hd, ?Hp, ?He, ?Hs.
Qed.

Lemma scan_number_stop st acc x :
  num_accepting st = true -> nfollow x ->
  scan_number st x acc = Ok (rev acc) x.
Proof.
  intros Hacc Hx. destruct x as [|c x]; cbn; [now rewrite Hacc|].
  now rewrite (num_step_follow st c Hx), Hacc.
Qed.

Lemma scan_number_local st acc s lit r :
  scan_number st s acc = Ok lit r ->
  exists c, s = c ++ r /\ forall x, nfollow x -> scan_number st (c ++ x) acc = Ok lit x.
Proof.
  revert st acc. induction s as [|a s IH]; intros st acc; cbn.
  - destruct (num_accepting st) eqn:Hacc; [|discriminate].
    intros [= <- <-]. exists []. split; [reflexivity|].
    intros x Hx. now apply scan_number_stop.
  - destruct (num_step st a) as [st'|] eqn:Hstep.
    + intros H. destruct (IH _ _ H) as (c & -> & Hc).
      exists (a :: c). split; [reflexivity|]. intros x Hx. cbn.
      rewrite Hstep. now apply Hc.
    + destruct (num_accepting st) eqn:Hacc; [|discriminate].
      intros [= <- <-]. exists []. split; [reflexivity|].
      intros x Hx. now apply scan_number_stop.
Qed.

(** *** Values *)

Lemma lift_Ok {A B} (f : A -> B) (p : result A) b r :
  lift f p = Ok b r -> exists a, p = Ok a r /\ b = f a.
Proof. destruct p; cbn; [|discriminate..]. intros [= <- <-]. eauto. Qed.

Lemma nfollow_blank c x : is_ws c = true -> nfollow (c :: x).
Proof.
  unfold is_ws. rewrite !orb_true_iff, !Ascii.eqb_eq.
  intros [[[->| ->]| ->]| ->]; reflexivity.
Qed.

Lemma value_body_local rm re :
  (forall acc, local nfollow (fun s => rm s acc)) ->
  (forall acc, local nfollow (fun s => re s acc)) ->
  local nfollow (value_body rm re).
Proof.
  intros Hrm Hre s a r H. destruct s as [|c s]; [discriminate|].
  cbn [value_body] in H.
  destruct (Ascii.eqb c "{") eqn:E1.
  { destruct (skip_ws s) as [|c1 r1] eqn:Hws; [discriminate|].
    destruct (skip_ws_split _ _ _ Hws) as (w & -> & _ & Hw).
    destruct (Ascii.eqb c1 "}") eqn:E2.
    - injection H as <- <-. exists (c :: w ++ [c1]).
      split; [cbn; now rewrite <- app_assoc|]. split; [discriminate|].
      intros x _. cbn [app value_body]. rewrite E1, <- app_assoc. cbn [app].
      now rewrite Hw, E2.
    - apply lift_Ok in H as (ms & H & ->).
      destruct (Hrm [] _ _ _ H) as (cm & E & Hne & Hcm).
      destruct cm as [|c1' cm]; [contradiction|]. injection E as <- ->.
      exists (c :: w ++ c1 :: cm).
      split; [cbn; now rewrite <- app_assoc|]. split; [discriminate|].
      intros x Hx. cbn [app value_body]. rewrite E1, <- app_assoc. cbn [app].
      rewrite Hw, E2. change (c1 :: cm ++ x) with ((c1 :: cm) ++ x).
      now rewrite (Hcm x Hx). }
  destruct (Ascii.eqb c "[") eqn:E3.
  { destruct (skip_ws s) as [|c1 r1] eqn:Hws; [discriminate|].
    destruct (skip_ws_split _ _ _ Hws) as (w & -> & _ & Hw).
    destruct (Ascii.eqb c1 "]") eqn:E2.
    - injection H as <- <-. exists (c :: w ++ [c1]).
      split; [cbn; now rewrite <- app_assoc|]. split; [discriminate|].
      intros x _. cbn [app value_body]. rewrite E1, E3, <- app_assoc. cbn [app].
      now rewrite Hw, E2.
    - apply lift_Ok in H as (ms & H & ->).
      destruct (Hre [] _ _ _ H) as (cm & E & Hne & Hcm).
      destruct cm as [|c1' cm]; [contradiction|]. injection E as <- ->.
      exists (c :: w ++ c1 :: cm).
      split; [cbn; now rewrite <- app_assoc|]. split; [discriminate|].
      intros x Hx. cbn [app value_body]. rewrite E1, E3, <- app_assoc. cbn [app].
      rewrite Hw, E2. change (c1 :: cm ++ x) with ((c1 :: cm) ++ x).
      now rewrite (Hcm x Hx). }
  destruct (Ascii.eqb c quote_char) eqn:E4.
  { apply lift_Ok in H as (body & H & ->).
    destruct (scan_string_local _ _ _ _ _ H) as (c0 & -> & _ & Hc0).
    exists (c :: c0). split; [reflexivity|]. split; [discriminate|].
    intros x _. cbn [app value_body]. rewrite E1, E3, E4.
    now rewrite (Hc0 x I). }
  destruct (Ascii.eqb c "-") eqn:E5.
  { apply lift_Ok in H as (lit & H & ->).
    destruct (scan_number_local _ _ _ _ _ H) as (c0 & -> & Hc0).
    exists (c :: c0). split; [reflexivity|]. split; [discriminate|].
    intros x Hx. cbn [app value_body]. rewrite E1, E3, E4, E5.
    now rewrite (Hc0 x Hx). }
  destruct (Ascii.eqb c "0") eqn:E6.
  { apply lift_Ok in H as (lit & H & ->).
    destruct (scan_number_local _ _ _ _ _ H) as (c0 & -> & Hc0).
    exists (c :: c0). split; [reflexivity|]. split; [discriminate|].
    intros x Hx. cbn [app value_body]. rewrite E1, E3, E4, E5, E6.
    now rewrite (Hc0 x Hx). }
  destruct (is_digit19 c) eqn:E7.
  { apply lift_Ok in H as (lit & H & ->).
    destruct (scan_number_local _ _ _ _ _ H) as (c0 & -> & Hc0).
    exists (c :: c0). split; [reflexivity|]. split; [discriminate|].
    intros x Hx. cbn [app value_body]. rewrite E1, E3, E4, E5, E6, E7.
    now rewrite (Hc0 x Hx). }
  destruct (Ascii.eqb c "t") eqn:E8.
  { destruct s as [|c1 [|c2 [|c3 r1]]]; try discriminate.
    destruct (Ascii.eqb c1 "r" && Ascii.eqb c2 "u" && Ascii.eqb c3 "e") eqn:El;
      [|discriminate].
    injection H as <- <-. exists [c; c1; c2; c3].
    split; [reflexivity|]. split; [discriminate|].
    intros x _. cbn [app value_body]. now rewrite E1, E3, E4, E5, E6, E7, E8, El. }
  destruct (Ascii.eqb c "f") eqn:E9.
  { destruct s as [|c1 [|c2 [|c3 [|c4 r1]]]]; try discriminate.
    destruct (Ascii.eqb c1 "a" && Ascii.eqb c2 "l" && Ascii.eqb c3 "s"
              && Ascii.eqb c4 "e") eqn:El; [|discriminate].
    injection H as <- <-. exists [c; c1; c2; c3; c4].
    split; [reflexivity|]. split; [discriminate|].
    intros x _. cbn [app value_body].
    now rewrite E1, E3, E4, E5, E6, E7, E8, E9, El. }
  destruct (Ascii.eqb c "n") eqn:E10; [|discriminate].
  destruct s as [|c1 [|c2 [|c3 r1]]]; try discriminate.
  destruct (Ascii.eqb c1 "u" && Ascii.eqb c2 "l" && Ascii.eqb c3 "l") eqn:El;
    [|discriminate].
  injection H as <- <-. exists [c; c1; c2; c3].
  split; [reflexivity|]. split; [discriminate|].
  intros x _. cbn [app value_body].
  now rewrite E1, E3, E4, E5, E6, E7, E8, E9, E10, El.
Qed.

Lemma nfollow_after_blanks w c y :
  skip_ws w = [] -> num_char c = false -> nfollow (w ++ c :: y).
Proof.
  intros Hw Hc. destruct w as [|a w]; [exact Hc|].
  cbn in Hw. destruct (is_ws a) eqn:E; [|discriminate].
  now apply nfollow_blank.
Qed.

Ltac norm_app := repeat (progress (cbn [app]; rewrite <- ?app_assoc)).

Lemma members_body_local rv rm :
  local nfollow rv ->
  (forall acc, local nfollow (fun s => rm s acc)) ->
  forall acc, local nfollow (fun s => members_body rv rm s acc).
Proof.
  intros Hrv Hrm acc s a r H. destruct s as [|c s]; [discriminate|].
  cbn [members_body] in H.
  destruct (Ascii.eqb c quote_char) eqn:E1; [|discriminate].
  destruct (scan_string InString s []) as [body r1| |] eqn:Hs; [|discriminate..].
  destruct (scan_string_local _ _ _ _ _ Hs) as (cs & -> & _ & Hcs).
  destruct (skip_ws r1) as [|c2 r2] eqn:Hw1; [discriminate|].
  destruct (skip_ws_split _ _ _ Hw1) as (w1 & -> & _ & Hw1').
  destruct (Ascii.eqb c2 ":") eqn:E2; [|discriminate].
  destruct (rv (skip_ws r2)) as [v r3| |] eqn:Hv; [|discriminate..].
  destruct (Hrv _ _ _ Hv) as (cv & Ecv & Hne & Hcv).
  destruct cv as [|h cv]; [contradiction|]. cbn [app] in Ecv.
  destruct (skip_ws_split _ _ _ Ecv) as (w2 & -> & _ & Hw2).
  rewrite Ecv in H. change (h :: cv ++ r3) with ((h :: cv) ++ r3) in H.
  rewrite consumed_app in H.
  destruct (skip_ws r3) as [|c4 r4] eqn:Hw3; [discriminate|].
  destruct (skip_ws_split _ _ _ Hw3) as (w3 & -> & Hb3 & Hw3').
  destruct (Ascii.eqb c4 ",") eqn:E3.
  - destruct (Hrm _ _ _ _ H) as (cm & Ecm & Hnm & Hcm).
    destruct cm as [|g cm]; [contradiction|]. cbn [app] in Ecm.
    destruct (skip_ws_split _ _ _ Ecm) as (w4 & -> & _ & Hw4).
    exists (c :: cs ++ w1 ++ c2 :: w2 ++ h :: cv ++ w3 ++ c4 :: w4 ++ g :: cm).
    split; [now norm_app|]. split; [discriminate|].
    intros x Hx. norm_app. cbn [members_body]. rewrite E1, (Hcs _ I), Hw1', E2, Hw2.
    change (h :: cv ++ ?y) with ((h :: cv) ++ y).
    rewrite Hcv, consumed_app, Hw3', E3, Hw4.
    + change (g :: cm ++ x) with ((g :: cm) ++ x). now apply Hcm.
    + apply nfollow_after_blanks; [exact Hb3|].
      apply Ascii.eqb_eq in E3. now subst.
  - destruct (Ascii.eqb c4 "}") eqn:E4; [|discriminate].
    injection H as <- <-.
    exists (c :: cs ++ w1 ++ c2 :: w2 ++ h :: cv ++ w3 ++ [c4]).
    split; [now norm_app|]. split; [discriminate|].
    intros x Hx. norm_app. cbn [members_body]. rewrite E1, (Hcs _ I), Hw1', E2, Hw2.
    change (h :: cv ++ ?y) with ((h :: cv) ++ y).
    rewrite Hcv, consumed_app, Hw3', E3, E4; [reflexivity|].
    apply nfollow_after_blanks; [exact Hb3|].
    apply Ascii.eqb_eq in E4. now subst.
Qed.

Lemma elements_body_local rv re :
  local nfollow rv ->
  (forall acc, local nfollow (fun s => re s acc)) ->
  forall acc, local nfollow (fun s => elements_body rv re s acc).
Proof.
  intros Hrv Hre acc s a r H. unfold elements_body in H.
  destruct (rv s) as [v r1| |] eqn:Hv; [|discriminate..].
  destruct (Hrv _ _ _ Hv) as (cv & -> & Hne & Hcv).
  destruct (skip_ws r1) as [|c2 r2] eqn:Hw1; [discriminate|].
  destruct (skip_ws_split _ _ _ Hw1) as (w1 & -> & Hb1 & Hw1').
  destruct (Ascii.eqb c2 ",") eqn:E1.
  - destruct (Hre _ _ _ _ H) as (cm & Ecm & Hnm & Hcm).
    destruct cm as [|g cm]; [contradiction|]. cbn [app] in Ecm.
    destruct (skip_ws_split _ _ _ Ecm) as (w2 & -> & _ & Hw2).
    exists (cv ++ w1 ++ c2 :: w2 ++ g :: cm).
    split; [now norm_app|]. split; [now destruct cv|].
    intros x Hx. norm_app. unfold elements_body.
    rewrite Hcv, Hw1', E1, Hw2.
    + change (g :: cm ++ x) with ((g :: cm) ++ x). now apply Hcm.
    + apply nfollow_after_blanks; [exact Hb1|].
      apply Ascii.eqb_eq in E1. now subst.
  - destruct (Ascii.eqb c2 "]") eqn:E2; [|discriminate].
    injection H as <- <-.
    exists (cv ++ w1 ++ [c2]).
    split; [now norm_app|]. split; [now destruct cv|].
    intros x Hx. norm_app. unfold elements_body.
    rewrite Hcv, Hw1', E1, E2; [reflexivity|].
    apply nfollow_after_blanks; [exact Hb1|].
    apply Ascii.eqb_eq in E2. now subst.
Qed.

Lemma parse_local n :
  local nfollow (parse_value n)
  /\ (forall acc, local nfollow (fun s => parse_members n s acc))
  /\ (forall acc, local nfollow (fun s => parse_elements n s acc)).
Proof.
  induction n as [|n (IHv & IHm & IHe)].
  - repeat split; intros; intros s a r H; discriminate.
  - split; [|split].
    + now apply value_body_local.
    + now apply members_body_local.
    + now apply elements_body_local.
Qed.

(** *** Fuel *)

Lemma scan_string_fuel st s acc : scan_string st s acc <> OutOfFuel.
Proof.
  revert st acc. induction s as [|c s IH]; intros st acc; cbn; [discriminate|].
  destruct st as [| |k].
  - destruct (Ascii.eqb c quote_char); [discriminate|].
    destruct (Ascii.eqb c "\"); [apply IH|].
    destruct (N_of_ascii c <? 32)%N; [discriminate|apply IH].
  - destruct (is_simple_escape c); [apply IH|].
    destruct (Ascii.eqb c "u"); [apply IH|discriminate].
  - destruct (is_hex c); [|discriminate]. destruct k; apply IH.
Qed.

Lemma scan_number_fuel st s acc : scan_number st s acc <> OutOfFuel.
Proof.
  revert st acc. induction s as [|c s IH]; intros st acc; cbn.
  - destruct (num_accepting st); discriminate.
  - destruct (num_step st c); [apply IH|].
    destruct (num_accepting st); discriminate.
Qed.

Lemma lift_fuel {A B} (f : A -> B) (p : result A) :
  p <> OutOfFuel -> lift f p <> OutOfFuel.
Proof. destruct p; cbn; [discriminate..|contradiction]. Qed.

Lemma lift_stable {A B} (f : A -> B) (p q : result A) :
  (p <> OutOfFuel -> q = p) -> lift f p <> OutOfFuel -> lift f q = lift f p.
Proof.
  intros H Hp. rewrite H; [reflexivity|]. intros ->. now apply Hp.
Qed.

(** More fuel does not change a result other than [OutOfFuel]. *)
Lemma value_body_stable rm rm' re re' :
  (forall s acc, rm s acc <> OutOfFuel -> rm' s acc = rm s acc) ->
  (forall s acc, re s acc <> OutOfFuel -> re' s acc = re s acc) ->
  forall s, value_body rm re s <> OutOfFuel ->
            value_body rm' re' s = value_body rm re s.
Proof.
  intros Hrm Hre s. destruct s as [|c s]; [reflexivity|]. cbn [value_body].
  destruct (Ascii.eqb c "{").
  { destruct (skip_ws s) as [|c1 r1]; [reflexivity|].
    destruct (Ascii.eqb c1 "}"); [reflexivity|]. apply lift_stable, Hrm. }
  destruct (Ascii.eqb c "[").
  { destruct (skip_ws s) as [|c1 r1]; [reflexivity|].
    destruct (Ascii.eqb c1 "]"); [reflexivity|]. apply lift_stable, Hre. }
  reflexivity.
Qed.

Lemma members_body_stable rv rv' rm rm' :
  (forall s, rv s <> OutOfFuel -> rv' s = rv s) ->
  (forall s acc, rm s acc <> OutOfFuel -> rm' s acc = rm s acc) ->
  forall s acc, members_body rv rm s acc <> OutOfFuel ->
                members_body rv' rm' s acc = members_body rv rm s acc.
Proof.
  intros Hrv Hrm s acc. destruct s as [|c s]; [reflexivity|]. cbn [members_body].
  destruct (Ascii.eqb c quote_char); [|reflexivity].
  destruct (scan_string InString s []) as [body r1| |]; [|reflexivity..].
  destruct (skip_ws r1) as [|c2 r2]; [reflexivity|].
  destruct (Ascii.eqb c2 ":"); [|reflexivity].
  destruct (rv (skip_ws r2)) as [v r3| |] eqn:Hv.
  - rewrite (Hrv (skip_ws r2)) by (rewrite Hv; discriminate). rewrite Hv.
    destruct (skip_ws r3) as [|c4 r4]; [reflexivity|].
    destruct (Ascii.eqb c4 ","); [apply Hrm | reflexivity].
  - rewrite (Hrv (skip_ws r2)) by (rewrite Hv; discriminate). now rewrite Hv.
  - intros H. now contradiction H.
Qed.

Lemma elements_body_stable rv rv' re re' :
  (forall s, rv s <> OutOfFuel -> rv' s = rv s) ->
  (forall s acc, re s acc <> OutOfFuel -> re' s acc = re s acc) ->
  forall s acc, elements_body rv re s acc <> OutOfFuel ->
                elements_body rv' re' s acc = elements_body rv re s acc.
Proof.
  intros Hrv Hre s acc. unfold elements_body.
  destruct (rv s) as [v r1| |] eqn:Hv.
  - rewrite (Hrv s) by (rewrite Hv; discriminate). rewrite Hv.
    destruct (skip_ws r1) as [|c2 r2]; [reflexivity|].
    destruct (Ascii.eqb c2 ","); [apply Hre | reflexivity].
  - rewrite (Hrv s) by (rewrite Hv; discriminate). now rewrite Hv.
  - intros H. now contradiction H.
Qed.

Lemma parse_stable_S n :
  (forall s, parse_value n s <> OutOfFuel -> parse_value (S n) s = parse_value n s)
  /\ (forall s acc, parse_members n s acc <> OutOfFuel ->
                    parse_members (S n) s acc = parse_members n s acc)
  /\ (forall s acc, parse_elements n s acc <> OutOfFuel ->
                    parse_elements (S n) s acc = parse_elements n s acc).
Proof.
  induction n as [|n (IHv & IHm & IHe)].
  - repeat split; intros; now contradiction H.
  - split; [|split]; intros.
    + now apply (value_body_stable (parse_members n) (parse_members (S n))).
    + now apply (members_body_stable (parse_value n) (parse_value (S n))).
    + now apply (elements_body_stable (parse_value n) (parse_value (S n))).
Qed.

Lemma parse_value_stable n m s :
  n <= m -> parse_value n s <> OutOfFuel -> parse_value m s = parse_value n s.
Proof.
  induction 1 as [|m Hle IH]; [reflexivity|]. intros H.
  rewrite <- (IH H). apply parse_stable_S. now rewrite (IH H).
Qed.

(** A successful read leaves less than it was given. *)
Lemma local_shrinks {A} F (p : bytes -> result A) s a r :
  local F p -> p s = Ok a r -> length r < length s.
Proof.
  intros Hp H. destruct (Hp _ _ _ H) as (c & -> & Hne & _).
  rewrite length_app. destruct c; [contradiction|]. cbn. lia.
Qed.

Lemma skip_ws_cons_length s c t : skip_ws s = c :: t -> length t < length s.
Proof. intros H. pose proof (skip_ws_length s) as Hl. rewrite H in Hl. cbn in Hl. lia. Qed.

(** Fuel above twice the length of the text is never exhausted. *)
Lemma value_body_fuel rm re k :
  (forall s acc, 2 * length s + 2 <= k -> rm s acc <> OutOfFuel) ->
  (forall s acc, 2 * length s + 2 <= k -> re s acc <> OutOfFuel) ->
  forall s, 2 * length s + 1 <= S k -> value_body rm re s <> OutOfFuel.
Proof.
  intros Hrm Hre s Hs. destruct s as [|c s]; [discriminate|]. cbn [value_body].
  cbn [length] in Hs.
  destruct (Ascii.eqb c "{").
  { destruct (skip_ws s) as [|c1 r1] eqn:Hw; [discriminate|].
    destruct (Ascii.eqb c1 "}"); [discriminate|]. apply lift_fuel, Hrm.
    rewrite <- Hw. pose proof (skip_ws_length s). lia. }
  destruct (Ascii.eqb c "[").
  { destruct (skip_ws s) as [|c1 r1] eqn:Hw; [discriminate|].
    destruct (Ascii.eqb c1 "]"); [discriminate|]. apply lift_fuel, Hre.
    rewrite <- Hw. pose proof (skip_ws_length s). lia. }
  destruct (Ascii.eqb c quote_char); [apply lift_fuel, scan_string_fuel|].
  destruct (Ascii.eqb c "-"); [apply lift_fuel, scan_number_fuel|].
  destruct (Ascii.eqb c "0"); [apply lift_fuel, scan_number_fuel|].
  destruct (is_digit19 c); [apply lift_fuel, scan_number_fuel|].
  destruct (Ascii.eqb c "t").
  { destruct s as [|c1 [|c2 [|c3 r1]]]; try discriminate.
    destruct (_ && _); discriminate. }
  destruct (Ascii.eqb c "f").
  { destruct s as [|c1 [|c2 [|c3 [|c4 r1]]]]; try discriminate.
    destruct (_ && _); discriminate. }
  destruct (Ascii.eqb c "n"); [|discriminate].
  destruct s as [|c1 [|c2 [|c3 r1]]]; try discriminate.
  destruct (_ && _); discriminate.
Qed.

Lemma members_body_fuel rv rm k :
  local nfollow rv ->
  (forall s, 2 * length s + 1 <= k -> rv s <> OutOfFuel) ->
  (forall s acc, 2 * length s + 2 <= k -> rm s acc <> OutOfFuel) ->
  forall s acc, 2 * length s + 2 <= S k -> members_body rv rm s acc <> OutOfFuel.
Proof.
  intros Hloc Hrv Hrm s acc Hs. destruct s as [|c s]; [discriminate|].
  cbn [members_body]. cbn [length] in Hs.
  destruct (Ascii.eqb c quote_char); [|discriminate].
  destruct (scan_string InString s []) as [body r1| |] eqn:Hsc;
    [|discriminate|now apply scan_string_fuel in Hsc].
  pose proof (local_shrinks _ _ _ _ _ (scan_string_local InString []) Hsc) as L1.
  destruct (skip_ws r1) as [|c2 r2] eqn:Hw1; [discriminate|].
  apply skip_ws_cons_length in Hw1.
  destruct (Ascii.eqb c2 ":"); [|discriminate].
  pose proof (skip_ws_length r2) as L2.
  destruct (rv (skip_ws r2)) as [v r3| |] eqn:Hv;
    [|discriminate|apply Hrv in Hv; [contradiction|lia]].
  pose proof (local_shrinks _ _ _ _ _ Hloc Hv) as L3.
  destruct (skip_ws r3) as [|c4 r4] eqn:Hw3; [discriminate|].
  apply skip_ws_cons_length in Hw3.
  destruct (Ascii.eqb c4 ",").
  - apply Hrm. pose proof (skip_ws_length r4). lia.
  - destruct (Ascii.eqb c4 "}"); discriminate.
Qed.

Lemma elements_body_fuel rv re k :
  local nfollow rv ->
  (forall s, 2 * length s + 1 <= k -> rv s <> OutOfFuel) ->
  (forall s acc, 2 * length s + 2 <= k -> re s acc <> OutOfFuel) ->
  forall s acc, 2 * length s + 2 <= S k -> elements_body rv re s acc <> OutOfFuel.
Proof.
  intros Hloc Hrv Hre s acc Hs. unfold elements_body.
  destruct (rv s) as [v r1| |] eqn:Hv;
    [|discriminate|apply Hrv in Hv; [contradiction|lia]].
  pose proof (local_shrinks _ _ _ _ _ Hloc Hv) as L1.
  destruct (skip_ws r1) as [|c2 r2] eqn:Hw1; [discriminate|].
  apply skip_ws_cons_length in Hw1.
  destruct (Ascii.eqb c2 ",").
  - apply Hre. pose proof (skip_ws_length r2). lia.
  - destruct (Ascii.eqb c2 "]"); discriminate.
Qed.

Lemma parse_fuel n :
  (forall s, 2 * length s + 1 <= n -> parse_value n s <> OutOfFuel)
  /\ (forall s acc, 2 * length s + 2 <= n -> parse_members n s acc <> OutOfFuel)
  /\ (forall s acc, 2 * length s + 2 <= n -> parse_elements n s acc <> OutOfFuel).
Proof.
  induction n as [|n (IHv & IHm & IHe)].
  - repeat split; intros; lia.
  - split; [|split]; intros.
    + now apply (value_body_fuel _ _ n).
    + apply (members_body_fuel _ _ n); auto. apply parse_local.
    + apply (elements_body_fuel _ _ n); auto. apply parse_local.
Qed.

(** Fuel beyond [fuel_for s] changes nothing. *)
Lemma parse_value_enough s n :
  fuel_for s <= n -> parse_value n s = parse_value (fuel_for s) s.
Proof.
  intros Hn. apply parse_value_stable; [exact Hn|].
  apply parse_fuel. unfold fuel_for. lia.
Qed.

(** The reader of whole documents never reports exhausted fuel. *)
Lemma parse_never_out_of_fuel (data : string) :
  parse_value (fuel_for (to_bytes data)) (skip_ws (to_bytes data)) <> OutOfFuel.
Proof.
  apply parse_fuel. pose proof (skip_ws_length (to_bytes data)).
  unfold fuel_for. lia.
Qed.

Lemma to_bytes_app (a b : string) : to_bytes (a +:+ b) = to_bytes a ++ to_bytes b.
Proof.
  unfold to_bytes. induction a as [|c a IH]; [reflexivity|].
  rewrite app_String. cbn [list_ascii_of_string app]. now rewrite IH.
Qed.

Lemma to_of_bytes (l : bytes) : to_bytes (of_bytes l) = l.
Proof. apply list_ascii_of_string_of_list_ascii. Qed.

Lemma value_not_blank n c s v r :
  parse_value n (c :: s) = Ok v r -> is_ws c = false.
Proof.
  destruct n as [|n]; [discriminate|]. cbn [parse_value value_body].
  destruct (is_ws c) eqn:E; [|reflexivity].
  unfold is_ws in E. rewrite !orb_true_iff, !Ascii.eqb_eq in E.
  destruct E as [[[->| ->]| ->]| ->]; discriminate.
Qed.

(** What a successful [parse] went through. *)
Lemma parse_inr data v :
  parse data = inr v ->
  exists c r,
    skip_ws (to_bytes data) = c ++ r /\ c <> [] /\ skip_ws r = []
    /\ forall n x, fuel_for (to_bytes data) <= n -> nfollow x ->
                   parse_value n (c ++ x) = Ok v x.
Proof.
  unfold parse.
  destruct (parse_value _ _) as [v' r| |] eqn:Hv; [|discriminate..].
  destruct (skip_ws r) eqn:Hr; [|discriminate]. intros [= ->].
  destruct (proj1 (parse_local _) _ _ _ Hv) as (c & E & Hne & Hc).
  exists c, r. repeat split; try assumption.
  intros n x Hn Hx. rewrite <- (Hc x Hx).
  apply parse_value_stable; [exact Hn|]. rewrite (Hc x Hx). discriminate.
Qed.

(** The bytes of a value, on their own, are a document with that value. *)
Lemma parse_consumed c v n :
  c <> [] -> parse_value n (c ++ []) = Ok v [] -> parse (of_bytes c) = inr v.
Proof.
  intros Hne H. rewrite app_nil_r in H. unfold parse. rewrite to_of_bytes.
  destruct c as [|a c]; [contradiction|].
  rewrite (skip_ws_nonblank a c (value_not_blank _ _ _ _ _ H)).
  assert (Hf : parse_value (fuel_for (a :: c)) (a :: c) <> OutOfFuel).
  { apply parse_fuel. unfold fuel_for. lia. }
  destruct (Nat.le_ge_cases n (fuel_for (a :: c))) as [Hle|Hle].
  - rewrite (parse_value_stable n _ _ Hle) by (rewrite H; discriminate).
    now rewrite H.
  - rewrite <- (parse_value_stable _ n _ Hle Hf). now rewrite H.
Qed.

Lemma envelope_fuel j :
  fuel_for (to_bytes (envelope j)) = S (S (fuel_for (to_bytes j) + 16)).
Proof.
  unfold envelope, fuel_for. rewrite !to_bytes_app, !length_app.
  change (length (to_bytes (dq "{'Job': "))) with 8.
  change (length (to_bytes "}")) with 1. lia.
Qed.

Lemma scan_Job rest :
  scan_string InString ("J" :: "o" :: "b" :: quote_char :: rest) []
  = Ok ["J"; "o"; "b"] rest.
Proof. reflexivity. Qed.

Lemma parse_envelope j v :
  parse j = inr v ->
  exists raw,
    parse (envelope j) = inr (Object [("Job"%string, (raw, v))])
    /\ parse raw = inr v.
Proof.
  intros Hj. destruct (parse_inr j v Hj) as (c & r & Ec & Hne & Hr & Hc).
  exists (of_bytes c). split.
  - destruct c as [|h c]; [contradiction|]. cbn [app] in Ec.
    destruct (skip_ws_split _ _ _ Ec) as (w & Ej & _ & Hw).
    unfold parse. rewrite envelope_fuel.
    assert (Hn' : fuel_for (to_bytes j) <= fuel_for (to_bytes j) + 16) by lia.
    set (n' := fuel_for (to_bytes j) + 16) in *.
    unfold envelope. rewrite !to_bytes_app, Ej.
    change (to_bytes (dq "{'Job': "))
      with ["{"; quote_char; "J"; "o"; "b"; quote_char; ":"; " "].
    norm_app. cbn [skip_ws is_ws Ascii.eqb Bool.eqb orb].
    cbn [parse_value value_body parse_members members_body].
    cbn [skip_ws is_ws Ascii.eqb Bool.eqb orb quote_char].
    rewrite scan_Job.
    cbn [skip_ws is_ws Ascii.eqb Bool.eqb orb quote_char].
    rewrite Hw. change (h :: c ++ ?y) with ((h :: c) ++ y).
    rewrite (Hc n' (r ++ to_bytes "}") Hn').
    + rewrite consumed_app, (skip_ws_blank_app r _ Hr). reflexivity.
    + now apply nfollow_after_blanks.
  - apply (parse_consumed c v (fuel_for (to_bytes j))); [exact Hne|].
    now apply Hc.
Qed.

End JsonFacts.

(** ** The spec parser *)

Lemma parseVolumespec_not_json raw :
  parseVolumespec raw false = (None, Some "error parsing jobspec: no json string").
Proof. reflexivity. Qed.

(** C1, as stated, fails: no input whatsoever is accepted in the native
    format. *)
Lemma native_format_never_accepted :
  ~ (exists raw v, parseVolumespec raw false = (Some v, None)).
Proof. intros (raw & v & H). rewrite parseVolumespec_not_json in H. discriminate. Qed.

(** C1 (amended): the spec parser accepts the JSON format only.  Every input
    announced as not being JSON is rejected with the error "no json string",
    whatever its text; some JSON input is accepted and returned as a
    record. *)
Theorem parseVolumespec_json_only :
  (forall raw,
     parseVolumespec raw false
     = (None, Some "error parsing jobspec: no json string"))
  /\ parseVolumespec (dq "{'ID': 'foo'}") true
     = (Some (CSIVolume.mk "foo" "" "" "" "" "" None "" 0 0), None).
Proof. split; [intros raw; reflexivity | vm_compute; reflexivity]. Qed.

(** C8: the empty JSON object decodes to the all-default record, and the
    spec parser rejects it with an error, under either format flag. *)
Theorem empty_object_rejected :
  parseJSONVolumespec "{}" = (Some CSIVolume.zero, None)
  /\ parseVolumespec "{}" true
     = (None,
        Some "error parsing volumespec: input JSON is not a valid Nomad volumespec")
  /\ forall is_json, exists e, parseVolumespec "{}" is_json = (None, Some e).
Proof.
  split; [vm_compute; reflexivity|].
  split; [vm_compute; reflexivity|].
  intros [|]; eexists; vm_compute; reflexivity.
Qed.

Lemma parseVolumespec_ok raw is_json volume :
  parseVolumespec raw is_json = (volume, None) ->
  exists v, volume = Some v /\ v <> CSIVolume.zero.
Proof.
  unfold parseVolumespec. destruct is_json; [|discriminate].
  destruct (parseJSONVolumespec raw) as [vol [e|]]; [discriminate|].
  destruct vol as [v|]; cbn [is_empty_volume]; [|discriminate].
  case_bool_decide as Hz; [discriminate|].
  intros [= <-]. eauto.
Qed.

(** *** The envelope *)

Lemma Unmarshal_RawMessages_envelope j root :
  Unmarshal_RawMessages j = inr root ->
  exists raw,
    Unmarshal_RawMessages (envelope j) = inr {["Job" := raw]}
    /\ Unmarshal_CSIVolume raw = Unmarshal_CSIVolume j.
Proof.
  unfold Unmarshal_RawMessages, Unmarshal_CSIVolume.
  destruct (Json.parse j) as [e|v] eqn:Hj; [discriminate|]. intros _.
  destruct (JsonFacts.parse_envelope j v Hj) as (raw & Henv & Hraw).
  exists raw. rewrite Henv, Hraw. split; reflexivity.
Qed.

(** C9, as stated, fails for an inner record that has a member "Job" of its
    own: parsed directly it is taken for an envelope and its own "Job" member
    is decoded; inside an envelope it is decoded itself, its "Job" member
    being ignored. *)
Lemma envelope_of_record_with_Job_differs :
  let j := dq "{'Job': {'ID': 'foo'}, 'ID': 'bar'}" in
  Unmarshal_RawMessages j
  = inr (<["ID" := dq "'bar'"]> {["Job" := dq "{'ID': 'foo'}"]})
  /\ parseVolumespec j true = (Some vol_foo, None)
  /\ parseVolumespec (envelope j) true = (Some vol_bar, None)
  /\ parseVolumespec (envelope j) true <> parseVolumespec j true.
Proof.
  cbv zeta. split; [vm_compute; reflexivity|].
  split; [vm_compute; reflexivity|].
  split; [vm_compute; reflexivity|].
  vm_compute. discriminate.
Qed.

(** C9 (amended): for every inner JSON record [j] that has no member "Job"
    of its own, parsing [j] inside the envelope gives exactly what parsing
    [j] directly gives, the same record or the same error; in particular
    [{"Job": {"ID": "foo"}}] parses as [{"ID": "foo"}] does. *)
Theorem envelope_unwrapped (j : string) (root : gmap string string) :
  Unmarshal_RawMessages j = inr root ->
  root !! "Job" = None ->
  parseJSONVolumespec (envelope j) = parseJSONVolumespec j
  /\ forall is_json, parseVolumespec (envelope j) is_json = parseVolumespec j is_json.
Proof.
  intros Hroot HJob.
  assert (H : parseJSONVolumespec (envelope j) = parseJSONVolumespec j).
  { destruct (Unmarshal_RawMessages_envelope j root Hroot) as (raw & Henv & Hraw).
    unfold parseJSONVolumespec. rewrite Henv, Hroot, HJob.
    rewrite lookup_singleton_eq. now rewrite Hraw. }
  split; [exact H|]. intros is_json. unfold parseVolumespec. now rewrite H.
Qed.

Lemma envelope_unwrapped_witness :
  parseJSONVolumespec (dq "{'Job': " +:+ dq "{'ID': 'foo'}" +:+ "}")
  = parseJSONVolumespec (dq "{'ID': 'foo'}")
  /\ forall is_json,
       parseVolumespec (dq "{'Job': " +:+ dq "{'ID': 'foo'}" +:+ "}") is_json
       = parseVolumespec (dq "{'ID': 'foo'}") is_json.
Proof.
  apply (envelope_unwrapped (dq "{'ID': 'foo'}") {["ID" := dq "'foo'"]}).
  - vm_compute. reflexivity.
  - reflexivity.
Defined.

Example envelope_foo :
  dq "{'Job': " +:+ dq "{'ID': 'foo'}" +:+ "}" = dq "{'Job': {'ID': 'foo'}}"
  /\ parseVolumespec (dq "{'Job': {'ID': 'foo'}}") true = (Some vol_foo, None)
  /\ parseVolumespec (dq "{'ID': 'foo'}") true = (Some vol_foo, None).
Proof. repeat split; vm_compute; reflexivity. Qed.

(** ** The reconciler *)

(** Unfolds one operation down to state passing. *)
Ltac run :=
  unfold CSIVolumes_Register, CSIVolumes_Deregister, CSIVolumes_Info,
    Evaluations_Info, Deployments_Info,
    RD.Id, RD.SetId, RD.GetString, RD.GetBool, RD.SetString, RD.SetMount,
    Diff.Id, Diff.NewValueKnown, Diff.GetChange, Diff.GetString, Diff.GetBool,
    Diff.SetNew, Diff.SetNewComputed, Diff.ForceNew;
  unfold bind, ret, gets, modify, deref, remote;
  cbn [fst snd rd_id rd_attrs diff_id diff_old diff_new diff_unknown
       diff_computed diff_forcenew evalId deploymentId].

(** C7: with "deregister_on_destroy" false, deregister returns success,
    makes no remote call and leaves the state as it is; with the flag true
    it makes exactly one remote call, the deregistration of the stored id in
    the stored namespace, or in "default" when the stored namespace is
    empty, and returns an error exactly when the remote call does, carrying
    the remote error. *)
Theorem deregister_calls (client : Client) (d : ResourceData) (calls : list Call) :
  (attr_bool (rd_attrs d) "deregister_on_destroy" = false ->
   resourceVolumeDeregister client (d, calls) = (Return None, (d, calls)))
  /\ (attr_bool (rd_attrs d) "deregister_on_destroy" = true ->
      let stored_ns := attr_string (rd_attrs d) "namespace" in
      let ns := if String.eqb stored_ns "" then "default" else stored_ns in
      resourceVolumeDeregister client (d, calls)
      = (Return
           (match Deregister client calls (rd_id d) ns with
            | Some e => Some ("error deregistering job: " +:+ e)
            | None => None
            end),
         (d, calls ++ [CallDeregister (rd_id d) ns]))).
Proof.
  unfold resourceVolumeDeregister. run. split; intros ->; cbn.
  - reflexivity.
  - unfold default_namespace. now destruct (Deregister client calls _ _).
Qed.

Lemma deregister_calls_witness :
  resourceVolumeDeregister (quiet_client (Some "boom"))
    (stored "vol-a" [("namespace", "ns1")] [("deregister_on_destroy", false)], [])
  = (Return None,
     (stored "vol-a" [("namespace", "ns1")] [("deregister_on_destroy", false)], []))
  /\ resourceVolumeDeregister (quiet_client (Some "boom"))
       (stored "vol-a" [("namespace", "ns1")] [("deregister_on_destroy", true)], [])
     = (Return (Some "error deregistering job: boom"),
        (stored "vol-a" [("namespace", "ns1")] [("deregister_on_destroy", true)],
         [CallDeregister "vol-a" "ns1"]))
  /\ resourceVolumeDeregister (quiet_client None)
       (stored "vol-a" [("namespace", "")] [("deregister_on_destroy", true)], [])
     = (Return None,
        (stored "vol-a" [("namespace", "")] [("deregister_on_destroy", true)],
         [CallDeregister "vol-a" "default"])).
Proof.
  split; [|split].
  - apply (proj1 (deregister_calls (quiet_client (Some "boom"))
                    (stored "vol-a" [("namespace", "ns1")]
                       [("deregister_on_destroy", false)]) [])).
    reflexivity.
  - apply (proj2 (deregister_calls (quiet_client (Some "boom"))
                    (stored "vol-a" [("namespace", "ns1")]
                       [("deregister_on_destroy", true)]) [])).
    reflexivity.
  - apply (proj2 (deregister_calls (quiet_client None)
                    (stored "vol-a" [("namespace", "")]
                       [("deregister_on_destroy", true)]) [])).
    reflexivity.
Defined.




Lemma read_found (client : Client) (d : ResourceData) (calls : list Call)
  (volume : CSIVolume.t) :
  let ns := default_namespace (attr_string (rd_attrs d) "namespace") in
  Info client calls (rd_id d) ns = inr volume ->
  resourceCSIVolumeRead client (d, calls)
  = (Return None,
     ({| rd_id := rd_id d; rd_attrs := read_attrs volume (rd_attrs d) |},
      calls ++ [CallInfo (rd_id d) ns])).
Proof.
  intros ns HInfo. unfold resourceCSIVolumeRead. run. fold ns.
  rewrite HInfo. cbn.
  destruct (N.eqb_spec (CSIVolume.ModifyIndex volume) 0) as [E|_];
    [unfold read_attrs; rewrite E|]; reflexivity.
Qed.

Lemma read_no_panic (client : Client) (s : ResourceData * list Call) msg :
  (resourceCSIVolumeRead client s).1 <> Panic msg.
Proof.
  destruct s as [d calls]. unfold resourceCSIVolumeRead. run.
  destruct (Info client calls _ _) as [e|volume]; cbn.
  - destruct (Contains e "404"); discriminate.
  - destruct (CSIVolume.ModifyIndex volume =? 0)%N; discriminate.
Qed.

Lemma stores_read_attrs id r a :
  stores {| rd_id := id; rd_attrs := read_attrs r a |} r = true.
Proof.
  unfold stores, read_attrs, attr_string, set_string, set_mount;
    cbn [rd_attrs strings bools mounts].
  rewrite !lookup_insert. cbn [decide decide_rel]. cbn -[FormatUint String.eqb].
  rewrite !String.eqb_refl. now rewrite bool_decide_eq_true_2.
Qed.

Lemma register_then_read (client : Client) (d : ResourceData)
  (calls : list Call) (volume : CSIVolume.t) :
  let ns := attr_string (rd_attrs d) "namespace" in
  parseVolumespec (attr_string (rd_attrs d) "volumespec")
    (attr_bool (rd_attrs d) "json") = (Some volume, None) ->
  (Register client calls (Some volume) ns).2 = None ->
  resourceVolumeRegister client (d, calls)
  = resourceCSIVolumeRead client
      (registered volume d, calls ++ [CallRegister (Some volume) ns]).
Proof.
  intros ns Hparse Hreg. unfold resourceVolumeRegister. run.
  rewrite Hparse. cbn. fold ns. rewrite Hreg. reflexivity.
Qed.

(** C2, as stated, fails: the remote registration succeeds and answers with
    a record, yet the state stored afterwards is not that record (here the
    modify index differs). *)
Lemma register_response_not_stored :
  let client := volume_client (Some vol_a_registered, None) None (inr vol_a_read) in
  exists d' calls',
    Register client [] (Some vol_a) "" = (Some vol_a_registered, None)
    /\ resourceVolumeRegister client (apply_state, []) = (Return None, (d', calls'))
    /\ stores d' vol_a_registered = false
    /\ stores d' vol_a_read = true.
Proof.
  exists {| rd_id := "vol-a";
            rd_attrs := read_attrs vol_a_read
                          (rd_attrs (registered vol_a apply_state)) |},
         [CallRegister (Some vol_a) ""; CallInfo "vol-a" "default"].
  repeat split; vm_compute; reflexivity.
Qed.

(** C2 (amended): when the remote registration succeeds, its answer is
    discarded.  The reconciler stores id, name, namespace and modify index of
    the desired record and then reads the volume back by that id and
    namespace; when this lookup succeeds, the record the lookup returns is
    what the stored attributes hold afterwards, the stored identity being the
    id of the desired record. *)
Theorem register_stores_lookup (client : Client) (d : ResourceData)
  (calls : list Call) (volume observed : CSIVolume.t) :
  let ns := attr_string (rd_attrs d) "namespace" in
  let calls1 := calls ++ [CallRegister (Some volume) ns] in
  let ns1 := default_namespace (CSIVolume.Namespace volume) in
  parseVolumespec (attr_string (rd_attrs d) "volumespec")
    (attr_bool (rd_attrs d) "json") = (Some volume, None) ->
  (Register client calls (Some volume) ns).2 = None ->
  Info client calls1 (CSIVolume.ID volume) ns1 = inr observed ->
  exists d',
    resourceVolumeRegister client (d, calls)
    = (Return None, (d', calls1 ++ [CallInfo (CSIVolume.ID volume) ns1]))
    /\ rd_id d' = CSIVolume.ID volume
    /\ rd_attrs d' = read_attrs observed (rd_attrs (registered volume d))
    /\ stores d' observed = true.
Proof.
  intros ns calls1 ns1 Hparse Hreg HInfo.
  rewrite (register_then_read client d calls volume Hparse Hreg).
  fold ns calls1.
  assert (Hns : default_namespace
                  (attr_string (rd_attrs (registered volume d)) "namespace") = ns1).
  { unfold registered, attr_string, set_string; cbn [rd_attrs strings].
    rewrite lookup_insert_ne by discriminate. now rewrite lookup_insert_eq. }
  eexists. split.
  - rewrite (read_found client (registered volume d) calls1 observed);
      rewrite Hns; [reflexivity | exact HInfo].
  - cbn [rd_id rd_attrs registered]. repeat split.
    apply stores_read_attrs.
Qed.

Lemma register_stores_lookup_witness :
  exists d',
    resourceVolumeRegister
      (volume_client (Some vol_a_registered, None) None (inr vol_a_read))
      (apply_state, [])
    = (Return None,
       (d', [CallRegister (Some vol_a) ""; CallInfo "vol-a" "default"]))
    /\ rd_id d' = "vol-a"
    /\ rd_attrs d' = read_attrs vol_a_read (rd_attrs (registered vol_a apply_state))
    /\ stores d' vol_a_read = true.
Proof.
  apply (register_stores_lookup
           (volume_client (Some vol_a_registered, None) None (inr vol_a_read))
           apply_state [] vol_a vol_a_read).
  - vm_compute. reflexivity.
  - reflexivity.
  - reflexivity.
Defined.

(** C10: a record the spec parser returns without an error is not nil and is
    not the all-default record; hence register, which reads id, name,
    namespace and modify index through that pointer without a check, never
    fails on a nil pointer, whatever the client answers. *)
Theorem parsed_volume_not_nil (raw : string) (is_json : bool)
  (volume : option CSIVolume.t) :
  parseVolumespec raw is_json = (volume, None) ->
  (exists v, volume = Some v /\ v <> CSIVolume.zero)
  /\ forall (client : Client) (d : ResourceData) (calls : list Call) msg,
       attr_string (rd_attrs d) "volumespec" = raw ->
       attr_bool (rd_attrs d) "json" = is_json ->
       (resourceVolumeRegister client (d, calls)).1 <> Panic msg.
Proof.
  intros Hparse.
  destruct (parseVolumespec_ok _ _ _ Hparse) as (v & -> & Hv).
  split; [eauto|].
  intros client d calls msg <- <-.
  destruct (Register client calls (Some v)
              (attr_string (rd_attrs d) "namespace")).2 as [e|] eqn:Hreg.
  - unfold resourceVolumeRegister. run. rewrite Hparse.
    cbn [fst snd]. rewrite Hreg. discriminate.
  - rewrite (register_then_read client d calls v Hparse Hreg).
    apply read_no_panic.
Qed.

Lemma parsed_volume_not_nil_witness :
  (exists v, Some vol_a = Some v /\ v <> CSIVolume.zero)
  /\ forall (client : Client) (d : ResourceData) (calls : list Call) msg,
       attr_string (rd_attrs d) "volumespec" = dq "{'ID': 'vol-a', 'Name': 'a'}" ->
       attr_bool (rd_attrs d) "json" = true ->
       (resourceVolumeRegister client (d, calls)).1 <> Panic msg.
Proof.
  apply (parsed_volume_not_nil (dq "{'ID': 'vol-a', 'Name': 'a'}") true (Some vol_a)).
  vm_compute. reflexivity.
Defined.

(** ** The planner *)

Lemma staged_namespace volume d :
  diff_string (staged volume d) "namespace" = diff_string d "namespace".
Proof.
  unfold diff_string, staged, set_string; cbn [diff_new diff_old strings].
  now rewrite !lookup_insert_ne by discriminate.
Qed.

Lemma customize_diff_parsed (d : ResourceDiff) (calls : list Call)
  (volume : CSIVolume.t) :
  "volumespec" ∉ diff_unknown d ->
  attr_string (diff_old d) "volumespec" <> diff_string d "volumespec" ->
  parseVolumespec (diff_string d "volumespec") (diff_bool d "json")
  = (Some volume, None) ->
  resourceVolumeCustomizeDiff (d, calls)
  = (let v := if String.eqb (CSIVolume.Namespace volume) ""
              then CSIVolume.with_Namespace "default" volume else volume in
     Diff.SetNew "id" (CSIVolume.ID v);;
     Diff.SetNew "name" (CSIVolume.Name v);;
     ns <- Diff.GetString "namespace";;
     (if negb (String.eqb ns (CSIVolume.Namespace v)) then
        Diff.SetNew "namespace" (CSIVolume.Namespace v);;
        Diff.ForceNew "namespace"
      else
        id <- Diff.Id;;
        if negb (String.eqb id (CSIVolume.ID v)) then
          deregister_on_id_change <- Diff.GetBool "deregister_on_id_change";;
          if deregister_on_id_change then
            Diff.ForceNew "id";;
            Diff.ForceNew "name"
          else ret tt
        else ret tt);;
     Diff.SetNewComputed "modify_index";;
     Diff.SetNewComputed "allocation_ids";;
     ret None)%go (d, calls).
Proof.
  intros Hknown Hchanged Hparse.
  unfold resourceVolumeCustomizeDiff.
  unfold bind at 1. unfold Diff.NewValueKnown at 1. unfold gets at 1.
  cbn [fst snd]. rewrite bool_decide_eq_true_2 by exact Hknown. cbn [negb].
  unfold bind at 1. unfold Diff.GetChange at 1. unfold gets at 1. cbn [fst snd].
  apply String.eqb_neq in Hchanged. rewrite Hchanged.
  unfold bind at 1. unfold Diff.GetBool at 1. unfold gets at 1. cbn [fst snd].
  rewrite Hparse.
  unfold bind at 1. unfold deref at 1. reflexivity.
Qed.

Lemma desired_namespace volume :
  CSIVolume.Namespace
    (if String.eqb (CSIVolume.Namespace volume) ""
     then CSIVolume.with_Namespace "default" volume else volume)
  = default_namespace (CSIVolume.Namespace volume).
Proof.
  unfold default_namespace.
  now destruct (String.eqb (CSIVolume.Namespace volume) "").
Qed.

Lemma desired_id_name volume :
  let v := if String.eqb (CSIVolume.Namespace volume) ""
           then CSIVolume.with_Namespace "default" volume else volume in
  CSIVolume.ID v = CSIVolume.ID volume /\ CSIVolume.Name v = CSIVolume.Name volume.
Proof. cbn. now destruct (String.eqb (CSIVolume.Namespace volume) ""). Qed.

(** C3: when the text of the desired spec is known, has changed and parses,
    and the observed namespace differs from the desired one (an empty desired
    namespace counting as "default"), the planner stages id, name and the new
    namespace and marks "namespace", and nothing else, as forcing
    replacement.  Neither the stored id nor the flag
    "deregister_on_id_change" is consulted: "id" and "name" are forced
    exactly when they were before, also when the id differs as well. *)
Theorem namespace_change_forces_replacement (d : ResourceDiff)
  (calls : list Call) (volume : CSIVolume.t) :
  let desired_ns := default_namespace (CSIVolume.Namespace volume) in
  "volumespec" ∉ diff_unknown d ->
  attr_string (diff_old d) "volumespec" <> diff_string d "volumespec" ->
  parseVolumespec (diff_string d "volumespec") (diff_bool d "json")
  = (Some volume, None) ->
  diff_string d "namespace" <> desired_ns ->
  exists d',
    resourceVolumeCustomizeDiff (d, calls) = (Return None, (d', calls))
    /\ diff_new d'
       = set_string "namespace" desired_ns (diff_new (staged volume d))
    /\ "namespace" ∈ diff_forcenew d'
    /\ diff_forcenew d' = {["namespace"]} ∪ diff_forcenew d
    /\ diff_computed d'
       = {["allocation_ids"]} ∪ ({["modify_index"]} ∪ diff_computed d).
Proof.
  intros desired_ns Hknown Hchanged Hparse Hns.
  rewrite (customize_diff_parsed d calls volume Hknown Hchanged Hparse).
  cbv zeta. destruct (desired_id_name volume) as [Hid Hname].
  rewrite Hid, Hname, desired_namespace. fold desired_ns.
  run. fold (staged volume d). rewrite staged_namespace.
  apply String.eqb_neq in Hns. rewrite Hns. cbn.
  eexists. split; [reflexivity|]. cbn.
  repeat split. set_solver.
Qed.

Lemma namespace_change_forces_replacement_witness :
  exists d',
    resourceVolumeCustomizeDiff (plan_both_change, []) = (Return None, (d', []))
    /\ diff_new d'
       = set_string "namespace" "ns2" (diff_new (staged vol_b_ns2 plan_both_change))
    /\ "namespace" ∈ diff_forcenew d'
    /\ diff_forcenew d' = {["namespace"]} ∪ ∅
    /\ diff_computed d' = {["allocation_ids"]} ∪ ({["modify_index"]} ∪ ∅).
Proof.
  apply (namespace_change_forces_replacement plan_both_change [] vol_b_ns2).
  - apply not_elem_of_empty.
  - vm_compute. discriminate.
  - vm_compute. reflexivity.
  - vm_compute. discriminate.
Defined.

(** C6: when the text of the desired spec is known, has changed and parses,
    the namespace is unchanged and the stored id differs from the desired
    id, the planner stages id and name, and then: with
    "deregister_on_id_change" set it marks "id" and "name" as forcing
    replacement; with the flag unset it marks nothing as forcing
    replacement, so the change proceeds in place. *)
Theorem id_change_policy (d : ResourceDiff) (calls : list Call)
  (volume : CSIVolume.t) :
  "volumespec" ∉ diff_unknown d ->
  attr_string (diff_old d) "volumespec" <> diff_string d "volumespec" ->
  parseVolumespec (diff_string d "volumespec") (diff_bool d "json")
  = (Some volume, None) ->
  diff_string d "namespace" = default_namespace (CSIVolume.Namespace volume) ->
  diff_id d <> CSIVolume.ID volume ->
  exists d',
    resourceVolumeCustomizeDiff (d, calls) = (Return None, (d', calls))
    /\ diff_new d' = diff_new (staged volume d)
    /\ diff_forcenew d'
       = (if diff_bool d "deregister_on_id_change"
          then {["name"]} ∪ ({["id"]} ∪ diff_forcenew d)
          else diff_forcenew d)
    /\ diff_computed d'
       = {["allocation_ids"]} ∪ ({["modify_index"]} ∪ diff_computed d).
Proof.
  intros Hknown Hchanged Hparse Hns Hid.
  rewrite (customize_diff_parsed d calls volume Hknown Hchanged Hparse).
  cbv zeta. destruct (desired_id_name volume) as [Hid' Hname].
  rewrite Hid', Hname, desired_namespace.
  run. fold (staged volume d). rewrite staged_namespace.
  rewrite Hns, String.eqb_refl. cbn [negb fst snd].
  change (diff_id (staged volume d)) with (diff_id d).
  apply String.eqb_neq in Hid. rewrite Hid. cbn [negb fst snd].
  change (diff_bool (staged volume d) "deregister_on_id_change")
    with (diff_bool d "deregister_on_id_change").
  destruct (diff_bool d "deregister_on_id_change");
    (eexists; split; [reflexivity|]; cbn; repeat split).
Qed.

Lemma id_change_policy_witness :
  (exists d',
     resourceVolumeCustomizeDiff (plan_rename false, []) = (Return None, (d', []))
     /\ diff_new d' = diff_new (staged vol_b (plan_rename false))
     /\ diff_forcenew d' = ∅
     /\ diff_computed d' = {["allocation_ids"]} ∪ ({["modify_index"]} ∪ ∅))
  /\ (exists d',
        resourceVolumeCustomizeDiff (plan_rename true, []) = (Return None, (d', []))
        /\ diff_new d' = diff_new (staged vol_b (plan_rename true))
        /\ diff_forcenew d' = {["name"]} ∪ ({["id"]} ∪ ∅)
        /\ diff_computed d' = {["allocation_ids"]} ∪ ({["modify_index"]} ∪ ∅)).
Proof.
  split.
  - apply (id_change_policy (plan_rename false) [] vol_b).
    + apply not_elem_of_empty.
    + vm_compute. discriminate.
    + vm_compute. reflexivity.
    + reflexivity.
    + vm_compute. discriminate.
  - apply (id_change_policy (plan_rename true) [] vol_b).
    + apply not_elem_of_empty.
    + vm_compute. discriminate.
    + vm_compute. reflexivity.
    + reflexivity.
    + vm_compute. discriminate.
Defined.

(** ** The completion poller *)

(** C4: one call of the closure takes exactly the transition the
    specification gives.  While no deployment id is captured it fetches the
    evaluation being monitored and moves as [evaluation_step] says; once a
    deployment id is captured it fetches that deployment and moves as
    [deployment_step] says.  In both phases it makes that one remote call
    and nothing else. *)
Theorem refresh_follows_spec (client : Client) (vars : RefreshVars)
  (calls : list Call) :
  (deploymentId vars = "" ->
   forall e, EvaluationInfo client calls (evalId vars) = inr e ->
   exists r vars' ps,
     deploymentStateRefreshFunc client (vars, calls)
     = (Return r, (vars', calls ++ [CallEvaluationInfo (evalId vars)]))
     /\ refresh_result r = None
     /\ observe r vars' = Some ps
     /\ evaluation_step (evalId vars) e ps)
  /\ (deploymentId vars <> "" ->
      forall d, DeploymentInfo client calls (deploymentId vars) = inr d ->
      exists r ps,
        deploymentStateRefreshFunc client (vars, calls)
        = (Return r, (vars, calls ++ [CallDeploymentInfo (deploymentId vars)]))
        /\ refresh_result r = Some d
        /\ observe r vars = Some ps
        /\ deployment_step (deploymentId vars) d ps).
Proof.
  destruct vars as [eid did]. cbn [evalId deploymentId]. split.
  - intros -> e He. unfold deploymentStateRefreshFunc. run.
    rewrite String.eqb_refl. cbn [fst snd evalId deploymentId]. rewrite He.
    destruct (String.eqb_spec (Evaluation.Status e) "complete") as [Hc|Hc].
    + destruct (String.eqb_spec (Evaluation.NextEval e) "") as [Hn|Hn];
        cbn [negb fst snd evalId deploymentId].
      * destruct (String.eqb_spec (Evaluation.DeploymentID e) "") as [Hd|Hd];
          cbn [negb fst snd evalId deploymentId].
        -- do 3 eexists. split; [reflexivity|]. split; [reflexivity|].
           split; [reflexivity|]. now apply eval_no_deployment.
        -- do 3 eexists. split; [reflexivity|]. split; [reflexivity|].
           split.
           ++ unfold observe; cbn.
              destruct (String.eqb_spec (Evaluation.DeploymentID e) "");
                [contradiction|reflexivity].
           ++ now apply eval_deployment.
      * do 3 eexists. split; [reflexivity|]. split; [reflexivity|].
        split; [reflexivity|]. now apply eval_next.
    + destruct (String.eqb_spec (Evaluation.Status e) "failed") as [Hf|Hf];
        [|destruct (String.eqb_spec (Evaluation.Status e) "cancelled") as [Hx|Hx]];
        cbn [orb].
      * do 3 eexists. split; [reflexivity|]. split; [reflexivity|].
        split; [reflexivity|].
        apply eval_failed; [now left|]. apply Contains_suffix.
      * do 3 eexists. split; [reflexivity|]. split; [reflexivity|].
        split; [reflexivity|].
        apply eval_failed; [now right|]. apply Contains_suffix.
      * do 3 eexists. split; [reflexivity|]. split; [reflexivity|].
        split; [reflexivity|]. now apply eval_other.
  - intros Hdid d Hd. unfold deploymentStateRefreshFunc. run.
    destruct (String.eqb_spec did "") as [|_]; [contradiction|].
    cbn [fst snd evalId deploymentId]. rewrite Hd.
    destruct (String.eqb_spec (Deployment.Status d) "successful") as [Hs|Hs].
    + do 2 eexists. split; [reflexivity|]. split; [reflexivity|].
      split; [reflexivity|]. now apply deployment_done.
    + destruct (String.eqb_spec (Deployment.Status d) "failed") as [Hf|Hf];
        [|destruct (String.eqb_spec (Deployment.Status d) "cancelled") as [Hx|Hx]];
        cbn [orb].
      * do 2 eexists. split; [reflexivity|]. split; [reflexivity|].
        split; [reflexivity|].
        apply deployment_failed; [now left|..].
        -- apply Contains_infix.
        -- do 2 apply Contains_later. apply Contains_infix.
        -- do 4 apply Contains_later. apply Contains_infix.
      * do 2 eexists. split; [reflexivity|]. split; [reflexivity|].
        split; [reflexivity|].
        apply deployment_failed; [now right|..].
        -- apply Contains_infix.
        -- do 2 apply Contains_later. apply Contains_infix.
        -- do 4 apply Contains_later. apply Contains_infix.
      * do 2 eexists. split; [reflexivity|]. split; [reflexivity|].
        split.
        -- unfold observe; cbn.
           destruct (String.eqb_spec did ""); [contradiction|reflexivity].
        -- now apply deployment_other.
Qed.

Lemma refresh_follows_spec_witness :
  (exists r vars' ps,
     deploymentStateRefreshFunc (chain_client "running")
       (deploymentStateRefreshFunc_init "e1", [])
     = (Return r, (vars', [] ++ [CallEvaluationInfo "e1"]))
     /\ refresh_result r = None
     /\ observe r vars' = Some ps
     /\ evaluation_step "e1" eval_e1 ps)
  /\ (exists r ps,
        deploymentStateRefreshFunc (chain_client "running")
          ({| evalId := "e2"; deploymentId := "d1" |}, [])
        = (Return r,
           ({| evalId := "e2"; deploymentId := "d1" |},
            [] ++ [CallDeploymentInfo "d1"]))
        /\ refresh_result r = Some (deployment_d1 "running")
        /\ observe r {| evalId := "e2"; deploymentId := "d1" |} = Some ps
        /\ deployment_step "d1" (deployment_d1 "running") ps).
Proof.
  split.
  - apply (proj1 (refresh_follows_spec (chain_client "running")
                    (deploymentStateRefreshFunc_init "e1") [])).
    + reflexivity.
    + reflexivity.
  - apply (proj2 (refresh_follows_spec (chain_client "running")
                    {| evalId := "e2"; deploymentId := "d1" |} [])).
    + discriminate.
    + reflexivity.
Defined.

(** The six sample transitions of the specification, run on the code. *)
Example refresh_samples :
  let run vars status := deploymentStateRefreshFunc (chain_client status) (vars, []) in
  let alone e := poll_client (fun _ => inr e) (fun _ => inl not_found) in
  run (deploymentStateRefreshFunc_init "e1") "running"
  = (Return (Build_Refresh None "monitoring_evaluation" None),
     ({| evalId := "e2"; deploymentId := "" |}, [CallEvaluationInfo "e1"]))
  /\ run (deploymentStateRefreshFunc_init "e2") "running"
     = (Return (Build_Refresh None "monitoring_deployment" None),
        ({| evalId := "e2"; deploymentId := "d1" |}, [CallEvaluationInfo "e2"]))
  /\ deploymentStateRefreshFunc
       (alone (Evaluation.mk "e3" "complete" "" "" ""))
       (deploymentStateRefreshFunc_init "e3", [])
     = (Return (Build_Refresh None "job_scheduled_without_deployment" None),
        (deploymentStateRefreshFunc_init "e3", [CallEvaluationInfo "e3"]))
  /\ deploymentStateRefreshFunc
       (alone (Evaluation.mk "e4" "failed" "no nodes" "" ""))
       (deploymentStateRefreshFunc_init "e4", [])
     = (Return (Build_Refresh None "" (Some "evaluation failed: no nodes")),
        (deploymentStateRefreshFunc_init "e4", [CallEvaluationInfo "e4"]))
  /\ run {| evalId := "e2"; deploymentId := "d1" |} "successful"
     = (Return (Build_Refresh (Some (deployment_d1 "successful"))
                  "deployment_successful" None),
        ({| evalId := "e2"; deploymentId := "d1" |}, [CallDeploymentInfo "d1"]))
  /\ run {| evalId := "e2"; deploymentId := "d1" |} "running"
     = (Return (Build_Refresh (Some (deployment_d1 "running"))
                  "monitoring_deployment" None),
        ({| evalId := "e2"; deploymentId := "d1" |}, [CallDeploymentInfo "d1"])).
Proof. vm_compute. repeat split. Qed.

(** * Further properties *)

(** ** The planner, path by path *)

Lemma default_namespace_nonempty ns : default_namespace ns <> "".
Proof.
  unfold default_namespace. destruct (String.eqb_spec ns ""); [discriminate|assumption].
Qed.

Lemma bind_gets {L A B} (f : L -> A) (k : A -> M L B) s :
  bind (gets f) k s = k (f s.1) s.
Proof. reflexivity. Qed.

Lemma bind_modify {L B} (f : L -> L) (k : unit -> M L B) s :
  bind (modify f) k s = k tt (f s.1, s.2).
Proof. reflexivity. Qed.

Lemma bind_ret_unit {L B} (k : unit -> M L B) s : bind (ret tt) k s = k tt s.
Proof. reflexivity. Qed.

(** Every path of the planner at once: what it returns and the plan it
    leaves. *)
Lemma customize_diff_cases (d : ResourceDiff) (calls : list Call) :
  resourceVolumeCustomizeDiff (d, calls)
  = if negb (bool_decide ("volumespec" ∉ diff_unknown d)) then
      (Return None, (all_computed d, calls))
    else if String.eqb (attr_string (diff_old d) "volumespec")
                       (diff_string d "volumespec") then
      (Return None, (d, calls))
    else
      match parseVolumespec (diff_string d "volumespec") (diff_bool d "json") with
      | (_, Some e) => (Return (Some e), (d, calls))
      | (None, None) =>
        (Panic "invalid memory address or nil pointer dereference", (d, calls))
      | (Some volume, None) => (Return None, (planned volume d, calls))
      end.
Proof.
  destruct (bool_decide ("volumespec" ∉ diff_unknown d)) eqn:Hk; cbn [negb].
  2:{ unfold resourceVolumeCustomizeDiff, Diff.NewValueKnown, Diff.SetNewComputed.
      rewrite bind_gets. cbn [fst]. rewrite Hk. cbn [negb].
      repeat (rewrite bind_modify;
              cbn [fst snd diff_id diff_old diff_new diff_unknown diff_computed
                   diff_forcenew]).
      reflexivity. }
  apply bool_decide_eq_true_1 in Hk.
  destruct (String.eqb_spec (attr_string (diff_old d) "volumespec")
              (diff_string d "volumespec")) as [He|Hne].
  { unfold resourceVolumeCustomizeDiff, Diff.NewValueKnown, Diff.GetChange.
    rewrite bind_gets. cbn [fst].
    rewrite bool_decide_eq_true_2 by exact Hk. cbn [negb].
    rewrite bind_gets. cbn [fst]. rewrite He, String.eqb_refl. reflexivity. }
  destruct (parseVolumespec _ _) as [vol [e|]] eqn:Hp.
  { unfold resourceVolumeCustomizeDiff, Diff.NewValueKnown, Diff.GetChange.
    rewrite bind_gets. cbn [fst].
    rewrite bool_decide_eq_true_2 by exact Hk. cbn [negb].
    rewrite bind_gets. cbn [fst].
    apply String.eqb_neq in Hne. rewrite Hne.
    unfold Diff.GetBool. rewrite bind_gets. cbn [fst]. rewrite Hp.
    now destruct vol. }
  destruct vol as [volume|].
  2:{ unfold resourceVolumeCustomizeDiff, Diff.NewValueKnown, Diff.GetChange.
      rewrite bind_gets. cbn [fst].
      rewrite bool_decide_eq_true_2 by exact Hk. cbn [negb].
      rewrite bind_gets. cbn [fst].
      apply String.eqb_neq in Hne. rewrite Hne.
      unfold Diff.GetBool. rewrite bind_gets. cbn [fst]. rewrite Hp. reflexivity. }
  rewrite (customize_diff_parsed d calls volume Hk Hne Hp).
  cbv zeta. destruct (desired_id_name volume) as [Hid Hname].
  rewrite Hid, Hname, desired_namespace.
  run. fold (staged volume d). rewrite staged_namespace. unfold planned.
  destruct (String.eqb (diff_string d "namespace")
              (default_namespace (CSIVolume.Namespace volume)));
    cbn [negb fst snd]; [|reflexivity].
  change (diff_id (staged volume d)) with (diff_id d).
  destruct (String.eqb (diff_id d) (CSIVolume.ID volume));
    cbn [negb fst snd andb]; [reflexivity|].
  change (diff_bool (staged volume d) "deregister_on_id_change")
    with (diff_bool d "deregister_on_id_change").
  destruct (diff_bool d "deregister_on_id_change"); reflexivity.
Qed.

(** X1: while the text of the desired spec is not known, the planner marks
    the ten computed attributes as to be computed, stages and forces
    nothing, makes no remote call and returns success. *)
Theorem unknown_spec_marks_computed (d : ResourceDiff) (calls : list Call) :
  "volumespec" ∈ diff_unknown d ->
  resourceVolumeCustomizeDiff (d, calls) = (Return None, (all_computed d, calls))
  /\ diff_new (all_computed d) = diff_new d
  /\ diff_forcenew (all_computed d) = diff_forcenew d
  /\ forall k, k ∈ ["id"; "modify_index"; "namespace"; "type"; "name";
                    "external_id"; "plugin_id"; "access_mode";
                    "attachment_mode"; "mount_options"] ->
               k ∈ diff_computed (all_computed d).
Proof.
  intros Hk. rewrite customize_diff_cases.
  rewrite bool_decide_eq_false_2 by (intros Hn; now apply Hn).
  repeat split. intros k Hin. cbn [all_computed diff_computed].
  repeat (apply elem_of_cons in Hin as [->|Hin]; [set_solver|]).
  now apply elem_of_nil in Hin.
Qed.

Lemma unknown_spec_marks_computed_witness :
  let d := {| diff_id := ""; diff_old := {| strings := ∅; bools := ∅; mounts := ∅ |};
              diff_new := {| strings := ∅; bools := ∅; mounts := ∅ |};
              diff_unknown := {["volumespec"]}; diff_computed := ∅;
              diff_forcenew := ∅ |} in
  resourceVolumeCustomizeDiff (d, []) = (Return None, (all_computed d, []))
  /\ diff_new (all_computed d) = diff_new d
  /\ diff_forcenew (all_computed d) = diff_forcenew d
  /\ forall k, k ∈ ["id"; "modify_index"; "namespace"; "type"; "name";
                    "external_id"; "plugin_id"; "access_mode";
                    "attachment_mode"; "mount_options"] ->
               k ∈ diff_computed (all_computed d).
Proof.
  cbv zeta. apply unknown_spec_marks_computed. cbn. apply elem_of_singleton_2.
  reflexivity.
Defined.

(** X2: when the text of the desired spec is known and equal to the stored
    text, the planner returns success and leaves the plan untouched: the
    text is not even parsed, so an unparsable text that did not change is
    not reported. *)
Theorem unchanged_text_plans_nothing (d : ResourceDiff) (calls : list Call) :
  "volumespec" ∉ diff_unknown d ->
  attr_string (diff_old d) "volumespec" = diff_string d "volumespec" ->
  resourceVolumeCustomizeDiff (d, calls) = (Return None, (d, calls)).
Proof.
  intros Hk He. rewrite customize_diff_cases.
  rewrite bool_decide_eq_true_2 by exact Hk. cbn [negb].
  now rewrite He, String.eqb_refl.
Qed.

Lemma unchanged_text_plans_nothing_witness :
  let d := planning "vol-a" [("volumespec", "not json")] [] [("json", true)] in
  resourceVolumeCustomizeDiff (d, []) = (Return None, (d, [])).
Proof.
  cbv zeta. apply unchanged_text_plans_nothing.
  - apply not_elem_of_empty.
  - reflexivity.
Defined.

(** X3: when the text of the desired spec is known and has changed but does
    not parse, the planner returns the error of the parser and leaves the
    plan untouched.  In particular, with the "json" flag off every changed
    text fails planning with "no json string". *)
Theorem unparsable_text_fails_plan (d : ResourceDiff) (calls : list Call) :
  "volumespec" ∉ diff_unknown d ->
  attr_string (diff_old d) "volumespec" <> diff_string d "volumespec" ->
  (forall vol e,
     parseVolumespec (diff_string d "volumespec") (diff_bool d "json") = (vol, Some e) ->
     resourceVolumeCustomizeDiff (d, calls) = (Return (Some e), (d, calls)))
  /\ (diff_bool d "json" = false ->
      resourceVolumeCustomizeDiff (d, calls)
      = (Return (Some "error parsing jobspec: no json string"), (d, calls))).
Proof.
  intros Hk Hne.
  assert (H : forall vol e,
    parseVolumespec (diff_string d "volumespec") (diff_bool d "json") = (vol, Some e) ->
    resourceVolumeCustomizeDiff (d, calls) = (Return (Some e), (d, calls))).
  { intros vol e Hp. rewrite customize_diff_cases.
    rewrite bool_decide_eq_true_2 by exact Hk. cbn [negb].
    apply String.eqb_neq in Hne. rewrite Hne, Hp. now destruct vol. }
  split; [exact H|]. intros Hj. apply (H None). now rewrite Hj.
Qed.

Lemma unparsable_text_fails_plan_witness :
  let d := planning "vol-a" [("volumespec", dq "{'ID': 'vol-a'}")]
             [("volumespec", dq "{'ID': 'vol-b'}")] [] in
  (forall vol e,
     parseVolumespec (diff_string d "volumespec") (diff_bool d "json") = (vol, Some e) ->
     resourceVolumeCustomizeDiff (d, []) = (Return (Some e), (d, [])))
  /\ (diff_bool d "json" = false ->
      resourceVolumeCustomizeDiff (d, [])
      = (Return (Some "error parsing jobspec: no json string"), (d, []))).
Proof.
  cbv zeta. apply unparsable_text_fails_plan.
  - apply not_elem_of_empty.
  - vm_compute. discriminate.
Defined.

(** X4: planning is local: on every plan, whatever the text and whichever
    path is taken, the planner makes no remote call. *)
Theorem planner_makes_no_call (d : ResourceDiff) (calls : list Call) :
  (resourceVolumeCustomizeDiff (d, calls)).2.2 = calls.
Proof.
  rewrite customize_diff_cases.
  destruct (negb _); [reflexivity|].
  destruct (String.eqb _ _); [reflexivity|].
  now destruct (parseVolumespec _ _) as [[volume|] [e|]].
Qed.


(** X6: when the text of the desired spec is known, has changed and parses,
    and neither the namespace nor the id differs, the planner stages id and
    name, forces nothing, whatever the flag "deregister_on_id_change", and
    marks modify index and allocation ids as to be computed: the change is
    planned in place. *)
Theorem same_identity_plans_in_place (d : ResourceDiff) (calls : list Call)
  (volume : CSIVolume.t) :
  "volumespec" ∉ diff_unknown d ->
  attr_string (diff_old d) "volumespec" <> diff_string d "volumespec" ->
  parseVolumespec (diff_string d "volumespec") (diff_bool d "json")
  = (Some volume, None) ->
  diff_string d "namespace" = default_namespace (CSIVolume.Namespace volume) ->
  diff_id d = CSIVolume.ID volume ->
  exists d',
    resourceVolumeCustomizeDiff (d, calls) = (Return None, (d', calls))
    /\ diff_new d' = diff_new (staged volume d)
    /\ diff_forcenew d' = diff_forcenew d
    /\ diff_computed d'
       = {["allocation_ids"]} ∪ ({["modify_index"]} ∪ diff_computed d).
Proof.
  intros Hk Hne Hp Hns Hid. rewrite customize_diff_cases.
  rewrite bool_decide_eq_true_2 by exact Hk. cbn [negb].
  apply String.eqb_neq in Hne. rewrite Hne, Hp.
  eexists. split; [reflexivity|]. unfold planned.
  rewrite Hns, Hid, !String.eqb_refl. cbn. repeat split.
Qed.

Lemma same_identity_plans_in_place_witness :
  let d := planning "vol-a"
             [("volumespec", dq "{'ID': 'vol-a'}"); ("namespace", "default")]
             [("volumespec", dq "{'ID': 'vol-a', 'Name': 'a'}")]
             [("json", true); ("deregister_on_id_change", true)] in
  exists d',
    resourceVolumeCustomizeDiff (d, []) = (Return None, (d', []))
    /\ diff_new d' = diff_new (staged vol_a d)
    /\ diff_forcenew d' = diff_forcenew d
    /\ diff_computed d'
       = {["allocation_ids"]} ∪ ({["modify_index"]} ∪ diff_computed d).
Proof.
  cbv zeta. apply same_identity_plans_in_place.
  - apply not_elem_of_empty.
  - vm_compute. discriminate.
  - vm_compute. reflexivity.
  - reflexivity.
  - reflexivity.
Defined.

(** X7: the namespace the planner compares with is never empty.  Hence
    against a state without a stored namespace, as that of a resource yet to
    be created, every plan whose text changed and parses stages the desired
    namespace ("default" for a spec without one) and marks "namespace" as
    forcing replacement, without consulting the id policy. *)
Theorem no_stored_namespace_forces_replacement (d : ResourceDiff)
  (calls : list Call) (volume : CSIVolume.t) :
  "volumespec" ∉ diff_unknown d ->
  attr_string (diff_old d) "volumespec" <> diff_string d "volumespec" ->
  parseVolumespec (diff_string d "volumespec") (diff_bool d "json")
  = (Some volume, None) ->
  diff_string d "namespace" = "" ->
  exists d',
    resourceVolumeCustomizeDiff (d, calls) = (Return None, (d', calls))
    /\ diff_string d' "namespace" = default_namespace (CSIVolume.Namespace volume)
    /\ diff_string d' "namespace" <> ""
    /\ diff_forcenew d' = {["namespace"]} ∪ diff_forcenew d.
Proof.
  intros Hk Hne Hp Hns. rewrite customize_diff_cases.
  rewrite bool_decide_eq_true_2 by exact Hk. cbn [negb].
  apply String.eqb_neq in Hne. rewrite Hne, Hp.
  eexists. split; [reflexivity|]. unfold planned. rewrite Hns.
  pose proof (default_namespace_nonempty (CSIVolume.Namespace volume)) as Hd.
  destruct (String.eqb_spec "" (default_namespace (CSIVolume.Namespace volume)))
    as [E|_]; [now symmetry in E|].
  cbn [negb]. unfold diff_string, set_string; cbn [diff_new diff_old strings].
  rewrite lookup_insert_eq. cbn. repeat split. exact Hd.
Qed.

Lemma no_stored_namespace_forces_replacement_witness :
  let d := planning "" [] [("volumespec", dq "{'ID': 'vol-a', 'Name': 'a'}")]
             [("json", true)] in
  exists d',
    resourceVolumeCustomizeDiff (d, []) = (Return None, (d', []))
    /\ diff_string d' "namespace" = default_namespace (CSIVolume.Namespace vol_a)
    /\ diff_string d' "namespace" <> ""
    /\ diff_forcenew d' = {["namespace"]} ∪ diff_forcenew d.
Proof.
  cbv zeta. apply no_stored_namespace_forces_replacement.
  - apply not_elem_of_empty.
  - vm_compute. discriminate.
  - vm_compute. reflexivity.
  - reflexivity.
Defined.

(** ** The reconciler, path by path *)

(** Every path of read at once. *)
Lemma read_cases (client : Client) (d : ResourceData) (calls : list Call) :
  let ns := default_namespace (attr_string (rd_attrs d) "namespace") in
  resourceCSIVolumeRead client (d, calls)
  = match Info client calls (rd_id d) ns with
    | inl e =>
      if Contains e "404"
      then (Return None, (with_id "" d, calls ++ [CallInfo (rd_id d) ns]))
      else (Return (Some ("error checking for job: " +:+ e)),
            (d, calls ++ [CallInfo (rd_id d) ns]))
    | inr volume =>
      (Return None,
       ({| rd_id := rd_id d; rd_attrs := read_attrs volume (rd_attrs d) |},
        calls ++ [CallInfo (rd_id d) ns]))
    end.
Proof.
  intros ns. destruct (Info client calls (rd_id d) ns) as [e|volume] eqn:HInfo.
  - unfold resourceCSIVolumeRead. run. fold ns. rewrite HInfo.
    now destruct (Contains e "404").
  - now apply read_found.
Qed.

Lemma read_attrs_namespace volume a :
  attr_string (read_attrs volume a) "namespace" = CSIVolume.Namespace volume.
Proof.
  unfold attr_string, read_attrs, set_string, set_mount; cbn [strings].
  rewrite lookup_insert_ne by discriminate. now rewrite lookup_insert_eq.
Qed.

Lemma set_string_id k v a : strings a !! k = Some v -> set_string k v a = a.
Proof.
  destruct a as [ss bs ms]. unfold set_string; cbn. intros H. f_equal.
  now apply insert_id.
Qed.

Lemma set_mount_id k v a : mounts a !! k = Some v -> set_mount k v a = a.
Proof.
  destruct a as [ss bs ms]. unfold set_mount; cbn. intros H. f_equal.
  now apply insert_id.
Qed.

Ltac stored_key :=
  unfold read_attrs, set_string, set_mount; cbn [strings mounts];
  rewrite ?lookup_insert_ne by discriminate; apply lookup_insert_eq.

Lemma read_attrs_twice volume a :
  read_attrs volume (read_attrs volume a) = read_attrs volume a.
Proof.
  set (x := read_attrs volume a). unfold read_attrs at 1.
  rewrite (set_string_id "id" _ x) by (subst x; stored_key).
  rewrite (set_string_id "name" _ x) by (subst x; stored_key).
  rewrite (set_string_id "external_id" _ x) by (subst x; stored_key).
  rewrite (set_string_id "plugin_id" _ x) by (subst x; stored_key).
  rewrite (set_string_id "access_mode" _ x) by (subst x; stored_key).
  rewrite (set_string_id "attachment_mode" _ x) by (subst x; stored_key).
  rewrite (set_mount_id "mount_options" _ x) by (subst x; stored_key).
  rewrite (set_string_id "namespace" _ x) by (subst x; stored_key).
  rewrite (set_string_id "modify_index" _ x) by (subst x; stored_key).
  reflexivity.
Qed.

(** X8: when the lookup of read finds the volume, read stores id, name,
    external id, plugin id, access mode, attachment mode, mount options,
    namespace and modify index of the record found, the modify index as a
    decimal numeral; it keeps the stored identity, returns success and has
    made exactly one lookup, in the stored namespace or in "default" when
    none is stored. *)
Theorem read_stores_found_record (client : Client) (d : ResourceData)
  (calls : list Call) (volume : CSIVolume.t) :
  let ns := default_namespace (attr_string (rd_attrs d) "namespace") in
  Info client calls (rd_id d) ns = inr volume ->
  exists d',
    resourceCSIVolumeRead client (d, calls)
    = (Return None, (d', calls ++ [CallInfo (rd_id d) ns]))
    /\ rd_id d' = rd_id d
    /\ stores d' volume = true
    /\ (CSIVolume.ModifyIndex volume = 0%N ->
        attr_string (rd_attrs d') "modify_index" = "0").
Proof.
  intros ns HInfo. eexists. split; [apply read_found; exact HInfo|].
  split; [reflexivity|]. split; [apply stores_read_attrs|].
  intros Hz. unfold attr_string, read_attrs, set_string; cbn [rd_attrs strings].
  rewrite lookup_insert_eq, Hz. reflexivity.
Qed.

Lemma read_stores_found_record_witness :
  let client := volume_client (None, None) None (inr vol_a_read) in
  let d := stored "vol-a" [] [] in
  exists d',
    resourceCSIVolumeRead client (d, [])
    = (Return None, (d', [] ++ [CallInfo "vol-a" "default"]))
    /\ rd_id d' = rd_id d
    /\ stores d' vol_a_read = true
    /\ (CSIVolume.ModifyIndex vol_a_read = 0%N ->
        attr_string (rd_attrs d') "modify_index" = "0").
Proof.
  cbv zeta.
  apply (read_stores_found_record (volume_client (None, None) None (inr vol_a_read))
           (stored "vol-a" [] []) [] vol_a_read).
  reflexivity.
Defined.

(** X9: read is idempotent: when two lookups in a row find the same record,
    the second read returns success and leaves the state exactly as the
    first one left it. *)
Theorem read_twice (client : Client) (d : ResourceData) (calls : list Call)
  (volume : CSIVolume.t) :
  let ns := default_namespace (attr_string (rd_attrs d) "namespace") in
  let ns' := default_namespace (CSIVolume.Namespace volume) in
  let calls1 := calls ++ [CallInfo (rd_id d) ns] in
  Info client calls (rd_id d) ns = inr volume ->
  Info client calls1 (rd_id d) ns' = inr volume ->
  exists d1,
    resourceCSIVolumeRead client (d, calls) = (Return None, (d1, calls1))
    /\ resourceCSIVolumeRead client (d1, calls1)
       = (Return None, (d1, calls1 ++ [CallInfo (rd_id d) ns'])).
Proof.
  intros ns ns' calls1 H1 H2. eexists. split; [apply read_found; exact H1|].
  rewrite read_cases. cbn [rd_id rd_attrs]. rewrite read_attrs_namespace.
  fold ns' calls1. rewrite H2. now rewrite read_attrs_twice.
Qed.

Lemma read_twice_witness :
  let client := volume_client (None, None) None (inr vol_a_read) in
  let d := stored "vol-a" [] [] in
  exists d1,
    resourceCSIVolumeRead client (d, []) = (Return None, (d1, [] ++ [CallInfo "vol-a" "default"]))
    /\ resourceCSIVolumeRead client (d1, [] ++ [CallInfo "vol-a" "default"])
       = (Return None, (d1, ([] ++ [CallInfo "vol-a" "default"])
                            ++ [CallInfo "vol-a" "default"])).
Proof.
  cbv zeta.
  apply (read_twice (volume_client (None, None) None (inr vol_a_read))
           (stored "vol-a" [] []) [] vol_a_read); reflexivity.
Defined.

(** X10: whatever the lookup answers, read makes exactly one lookup and
    does not panic; it never touches a stored flag, nor any stored text
    other than the nine attributes it refreshes (so the spec text itself is
    never rewritten), and it either keeps the stored identity or clears
    it. *)
Theorem read_frame (client : Client) (d : ResourceData) (calls : list Call) :
  let ns := default_namespace (attr_string (rd_attrs d) "namespace") in
  let r := resourceCSIVolumeRead client (d, calls) in
  r.2.2 = calls ++ [CallInfo (rd_id d) ns]
  /\ bools (rd_attrs r.2.1) = bools (rd_attrs d)
  /\ (forall k,
        k ∉ ["id"; "name"; "external_id"; "plugin_id"; "access_mode";
             "attachment_mode"; "namespace"; "modify_index"] ->
        strings (rd_attrs r.2.1) !! k = strings (rd_attrs d) !! k)
  /\ (rd_id r.2.1 = rd_id d \/ rd_id r.2.1 = "").
Proof.
  cbv zeta. rewrite read_cases.
  destruct (Info client calls _ _) as [e|volume].
  - destruct (Contains e "404"); cbn; repeat split; auto.
  - cbn [fst snd rd_id rd_attrs]. repeat split; auto.
    intros k Hk. unfold read_attrs, set_string, set_mount; cbn [strings].
    rewrite !lookup_insert_ne; [reflexivity|..];
      intros <-; apply Hk; repeat constructor.
Qed.

Lemma registered_namespace volume d :
  default_namespace (attr_string (rd_attrs (registered volume d)) "namespace")
  = default_namespace (CSIVolume.Namespace volume).
Proof.
  unfold registered, attr_string, set_string; cbn [rd_attrs strings].
  rewrite lookup_insert_ne by discriminate. now rewrite lookup_insert_eq.
Qed.

(** X11: when the stored spec text does not parse, register returns the
    error of the parser, makes no remote call and leaves the state
    untouched. *)
Theorem register_rejects_unparsable (client : Client) (d : ResourceData)
  (calls : list Call) (vol : option CSIVolume.t) (e : error) :
  parseVolumespec (attr_string (rd_attrs d) "volumespec")
    (attr_bool (rd_attrs d) "json") = (vol, Some e) ->
  resourceVolumeRegister client (d, calls) = (Return (Some e), (d, calls)).
Proof.
  intros Hp. unfold resourceVolumeRegister, RD.GetString, RD.GetBool.
  rewrite !bind_gets. cbn [fst]. now rewrite Hp.
Qed.

Lemma register_rejects_unparsable_witness :
  resourceVolumeRegister (quiet_client None)
    (stored "" [("volumespec", "{}")] [("json", true)], [])
  = (Return (Some "error parsing volumespec: input JSON is not a valid Nomad volumespec"),
     (stored "" [("volumespec", "{}")] [("json", true)], [])).
Proof.
  apply (register_rejects_unparsable (quiet_client None)
           (stored "" [("volumespec", "{}")] [("json", true)]) [] None).
  vm_compute. reflexivity.
Defined.

(** X12: when the remote registration fails, register returns the remote
    error behind the prefix "error applying volumespec: ", has made that one
    call and nothing else, and leaves the state untouched: neither the
    identity nor any attribute of the desired record is stored. *)
Theorem register_remote_failure (client : Client) (d : ResourceData)
  (calls : list Call) (volume : CSIVolume.t) (e : error) :
  let ns := attr_string (rd_attrs d) "namespace" in
  parseVolumespec (attr_string (rd_attrs d) "volumespec")
    (attr_bool (rd_attrs d) "json") = (Some volume, None) ->
  (Register client calls (Some volume) ns).2 = Some e ->
  resourceVolumeRegister client (d, calls)
  = (Return (Some ("error applying volumespec: " +:+ e)),
     (d, calls ++ [CallRegister (Some volume) ns])).
Proof.
  intros ns Hp Hreg. unfold resourceVolumeRegister, RD.GetString, RD.GetBool.
  rewrite !bind_gets. cbn [fst]. rewrite Hp. rewrite bind_gets. cbn [fst].
  unfold CSIVolumes_Register, remote, bind at 1. cbn [fst snd]. fold ns.
  now rewrite Hreg.
Qed.

Lemma register_remote_failure_witness :
  resourceVolumeRegister
    (volume_client (None, Some "Unexpected response code: 500 (no plugin)") None
       (inl not_found))
    (apply_state, [])
  = (Return (Some "error applying volumespec: Unexpected response code: 500 (no plugin)"),
     (apply_state, [] ++ [CallRegister (Some vol_a) ""])).
Proof.
  apply (register_remote_failure
           (volume_client (None, Some "Unexpected response code: 500 (no plugin)")
              None (inl not_found))
           apply_state [] vol_a).
  - vm_compute. reflexivity.
  - reflexivity.
Defined.

(** X13: when the registration succeeds but reading the volume back fails,
    the state already holds the identity, name, namespace and modify index
    of the desired record.  If the failure is a not-found error (its text
    contains "404"), register returns success with the identity cleared;
    otherwise it returns the error of read, and the identity of the desired
    record stays stored. *)
Theorem register_read_back_failure (client : Client) (d : ResourceData)
  (calls : list Call) (volume : CSIVolume.t) (e : error) :
  let ns := attr_string (rd_attrs d) "namespace" in
  let calls1 := calls ++ [CallRegister (Some volume) ns] in
  let ns1 := default_namespace (CSIVolume.Namespace volume) in
  let calls2 := calls1 ++ [CallInfo (CSIVolume.ID volume) ns1] in
  parseVolumespec (attr_string (rd_attrs d) "volumespec")
    (attr_bool (rd_attrs d) "json") = (Some volume, None) ->
  (Register client calls (Some volume) ns).2 = None ->
  Info client calls1 (CSIVolume.ID volume) ns1 = inl e ->
  (Contains e "404" = true ->
   resourceVolumeRegister client (d, calls)
   = (Return None, (with_id "" (registered volume d), calls2)))
  /\ (Contains e "404" = false ->
      resourceVolumeRegister client (d, calls)
      = (Return (Some ("error checking for job: " +:+ e)),
         (registered volume d, calls2))).
Proof.
  intros ns calls1 ns1 calls2 Hp Hreg HInfo.
  rewrite (register_then_read client d calls volume Hp Hreg). fold ns calls1.
  rewrite read_cases. rewrite registered_namespace. fold ns1.
  cbn [rd_id registered]. rewrite HInfo. fold calls2.
  split; intros ->; reflexivity.
Qed.

Lemma register_read_back_failure_witness :
  let client500 :=
    volume_client (None, None) None
      (inl "Unexpected response code: 500 (internal error)") in
  resourceVolumeRegister (quiet_client None) (apply_state, [])
  = (Return None,
     (with_id "" (registered vol_a apply_state),
      ([] ++ [CallRegister (Some vol_a) ""]) ++ [CallInfo "vol-a" "default"]))
  /\ resourceVolumeRegister client500 (apply_state, [])
     = (Return
          (Some "error checking for job: Unexpected response code: 500 (internal error)"),
        (registered vol_a apply_state,
         ([] ++ [CallRegister (Some vol_a) ""]) ++ [CallInfo "vol-a" "default"])).
Proof.
  cbv zeta. split.
  - apply (proj1 (register_read_back_failure (quiet_client None) apply_state []
                    vol_a not_found
                    ltac:(vm_compute; reflexivity) eq_refl eq_refl)).
    reflexivity.
  - apply (proj2 (register_read_back_failure
                    (volume_client (None, None) None
                       (inl "Unexpected response code: 500 (internal error)"))
                    apply_state [] vol_a
                    "Unexpected response code: 500 (internal error)"
                    ltac:(vm_compute; reflexivity) eq_refl eq_refl)).
    reflexivity.
Defined.

Lemma deregister_enabled (client : Client) (d : ResourceData) (calls : list Call) :
  attr_bool (rd_attrs d) "deregister_on_destroy" = true ->
  let ns := default_namespace (attr_string (rd_attrs d) "namespace") in
  resourceVolumeDeregister client (d, calls)
  = (Return
       (match Deregister client calls (rd_id d) ns with
        | Some e => Some ("error deregistering job: " +:+ e)
        | None => None
        end),
     (d, calls ++ [CallDeregister (rd_id d) ns])).
Proof.
  intros Hflag ns. unfold resourceVolumeDeregister. run. rewrite Hflag. cbn.
  fold ns. now destruct (Deregister client calls _ _).
Qed.

(** X14: apply followed by destroy.  Registration is called in the
    namespace stored before the apply and the volume is read back in the
    namespace of the spec; after that, deregister (enabled in the state)
    issues its one call for the id the spec declared, in the namespace the
    read-back reported, or in "default" if the read-back reported none:
    neither in the namespace stored before the apply nor in that of the
    spec. *)
Theorem apply_then_destroy (client : Client) (d : ResourceData)
  (calls : list Call) (volume observed : CSIVolume.t) :
  let ns0 := attr_string (rd_attrs d) "namespace" in
  let ns1 := if String.eqb (CSIVolume.Namespace volume) "" then "default"
             else CSIVolume.Namespace volume in
  let ns2 := if String.eqb (CSIVolume.Namespace observed) "" then "default"
             else CSIVolume.Namespace observed in
  let calls2 := (calls ++ [CallRegister (Some volume) ns0])
                ++ [CallInfo (CSIVolume.ID volume) ns1] in
  parseVolumespec (attr_string (rd_attrs d) "volumespec")
    (attr_bool (rd_attrs d) "json") = (Some volume, None) ->
  (Register client calls (Some volume) ns0).2 = None ->
  Info client (calls ++ [CallRegister (Some volume) ns0]) (CSIVolume.ID volume) ns1
  = inr observed ->
  attr_bool (rd_attrs d) "deregister_on_destroy" = true ->
  let applied := resourceVolumeRegister client (d, calls) in
  applied.1 = Return None
  /\ applied.2.2 = calls2
  /\ (resourceVolumeDeregister client applied.2).2
     = (applied.2.1, calls2 ++ [CallDeregister (CSIVolume.ID volume) ns2]).
Proof.
  intros ns0 ns1 ns2 calls2 Hp Hreg HInfo Hflag applied. subst applied.
  change ns1 with (default_namespace (CSIVolume.Namespace volume)) in *.
  change ns2 with (default_namespace (CSIVolume.Namespace observed)) in *.
  rewrite (register_then_read client d calls volume Hp Hreg). fold ns0.
  rewrite read_cases, registered_namespace.
  cbn [rd_id registered]. rewrite HInfo. fold calls2. cbn [fst snd].
  split; [reflexivity|]. split; [reflexivity|].
  rewrite deregister_enabled by exact Hflag.
  cbn [fst snd rd_id rd_attrs]. now rewrite read_attrs_namespace.
Qed.

Lemma apply_then_destroy_witness :
  let client := volume_client (None, None) None (inr vol_a_ns2) in
  let applied := resourceVolumeRegister client (moving_state, []) in
  applied.1 = Return None
  /\ applied.2.2 = ([] ++ [CallRegister (Some vol_a_ns1) "ns0"])
                   ++ [CallInfo "vol-a" "ns1"]
  /\ (resourceVolumeDeregister client applied.2).2
     = (applied.2.1,
        (([] ++ [CallRegister (Some vol_a_ns1) "ns0"]) ++ [CallInfo "vol-a" "ns1"])
        ++ [CallDeregister "vol-a" "ns2"]).
Proof.
  cbv zeta.
  apply (apply_then_destroy
           (volume_client (None, None) None (inr vol_a_ns2))
           moving_state [] vol_a_ns1 vol_a_ns2).
  - vm_compute. reflexivity.
  - reflexivity.
  - reflexivity.
  - reflexivity.
Defined.

(** ** The completion poller, call by call *)

(** Every path of one call of the closure. *)
Lemma refresh_cases (client : Client) (vars : RefreshVars) (calls : list Call) :
  deploymentStateRefreshFunc client (vars, calls)
  = if String.eqb (deploymentId vars) "" then
      match EvaluationInfo client calls (evalId vars) with
      | inl err =>
        (Return (Build_Refresh None "" (Some err)),
         (vars, calls ++ [CallEvaluationInfo (evalId vars)]))
      | inr eval =>
        if String.eqb (Evaluation.Status eval) "complete" then
          if negb (String.eqb (Evaluation.NextEval eval) "") then
            (Return (Build_Refresh None "monitoring_evaluation" None),
             ({| evalId := Evaluation.NextEval eval;
                 deploymentId := deploymentId vars |},
              calls ++ [CallEvaluationInfo (evalId vars)]))
          else if negb (String.eqb (Evaluation.DeploymentID eval) "") then
            (Return (Build_Refresh None "monitoring_deployment" None),
             ({| evalId := evalId vars;
                 deploymentId := Evaluation.DeploymentID eval |},
              calls ++ [CallEvaluationInfo (evalId vars)]))
          else
            (Return (Build_Refresh None "job_scheduled_without_deployment" None),
             (vars, calls ++ [CallEvaluationInfo (evalId vars)]))
        else if String.eqb (Evaluation.Status eval) "failed"
                || String.eqb (Evaluation.Status eval) "cancelled" then
          (Return (Build_Refresh None ""
                     (Some ("evaluation failed: "
                            +:+ Evaluation.StatusDescription eval))),
           (vars, calls ++ [CallEvaluationInfo (evalId vars)]))
        else
          (Return (Build_Refresh None "monitoring_evaluation" None),
           (vars, calls ++ [CallEvaluationInfo (evalId vars)]))
      end
    else
      match DeploymentInfo client calls (deploymentId vars) with
      | inl err =>
        (Return (Build_Refresh None "" (Some err)),
         (vars, calls ++ [CallDeploymentInfo (deploymentId vars)]))
      | inr deployment =>
        (Return
           (if String.eqb (Deployment.Status deployment) "successful" then
              Build_Refresh (Some deployment) "deployment_successful" None
            else if String.eqb (Deployment.Status deployment) "failed"
                    || String.eqb (Deployment.Status deployment) "cancelled" then
              Build_Refresh (Some deployment) ""
                (Some ("deployment '" +:+ Deployment.ID deployment
                       +:+ "' terminated with status '"
                       +:+ Deployment.Status deployment
                       +:+ "': '" +:+ Deployment.StatusDescription deployment
                       +:+ "'"))
            else Build_Refresh (Some deployment) "monitoring_deployment" None),
         (vars, calls ++ [CallDeploymentInfo (deploymentId vars)]))
      end.
Proof.
  unfold deploymentStateRefreshFunc. run.
  destruct (String.eqb (deploymentId vars) ""); cbn [fst snd].
  - destruct (EvaluationInfo client calls (evalId vars)) as [e|eval]; [reflexivity|].
    destruct (String.eqb (Evaluation.Status eval) "complete").
    + destruct (String.eqb (Evaluation.NextEval eval) ""); cbn [negb];
        [|reflexivity].
      destruct (String.eqb (Evaluation.DeploymentID eval) ""); reflexivity.
    + destruct (_ || _); reflexivity.
  - destruct (DeploymentInfo client calls (deploymentId vars)) as [e|dep];
      [reflexivity|].
    destruct (String.eqb (Deployment.Status dep) "successful"); [reflexivity|].
    destruct (_ || _); reflexivity.
Qed.

Lemma refresh_appends (client : Client) (vars : RefreshVars) (calls : list Call) :
  (deploymentStateRefreshFunc client (vars, calls)).2.2
  = calls ++ [refresh_call vars].
Proof.
  rewrite refresh_cases. unfold refresh_call.
  destruct (String.eqb (deploymentId vars) "").
  - destruct (EvaluationInfo client calls (evalId vars)) as [e|eval];
      [reflexivity|].
    destruct (String.eqb (Evaluation.Status eval) "complete").
    + destruct (negb _); [reflexivity|]. destruct (negb _); reflexivity.
    + destruct (_ || _); reflexivity.
  - now destruct (DeploymentInfo client calls (deploymentId vars)).
Qed.

(** X16: a failure to fetch the evaluation or the deployment ends the call
    with that very error, no result and an empty state label; the captured
    variables are unchanged, so a later call fetches the same object
    again. *)
Theorem refresh_transport_error (client : Client) (vars : RefreshVars)
  (calls : list Call) (e : error) :
  (deploymentId vars = "" ->
   EvaluationInfo client calls (evalId vars) = inl e ->
   deploymentStateRefreshFunc client (vars, calls)
   = (Return (Build_Refresh None "" (Some e)),
      (vars, calls ++ [CallEvaluationInfo (evalId vars)])))
  /\ (deploymentId vars <> "" ->
      DeploymentInfo client calls (deploymentId vars) = inl e ->
      deploymentStateRefreshFunc client (vars, calls)
      = (Return (Build_Refresh None "" (Some e)),
         (vars, calls ++ [CallDeploymentInfo (deploymentId vars)]))).
Proof.
  rewrite refresh_cases. split.
  - intros -> ->. reflexivity.
  - intros Hd ->. apply String.eqb_neq in Hd. now rewrite Hd.
Qed.

Lemma refresh_transport_error_witness :
  deploymentStateRefreshFunc (chain_client "running")
    (deploymentStateRefreshFunc_init "e9", [])
  = (Return (Build_Refresh None ""
               (Some "Unexpected response code: 404 (eval not found)")),
     (deploymentStateRefreshFunc_init "e9", [] ++ [CallEvaluationInfo "e9"]))
  /\ deploymentStateRefreshFunc (chain_client "running")
       ({| evalId := "e2"; deploymentId := "d9" |}, [])
     = (Return (Build_Refresh None ""
                  (Some "Unexpected response code: 404 (deployment not found)")),
        ({| evalId := "e2"; deploymentId := "d9" |},
         [] ++ [CallDeploymentInfo "d9"])).
Proof.
  split.
  - apply (proj1 (refresh_transport_error (chain_client "running")
                    (deploymentStateRefreshFunc_init "e9") []
                    "Unexpected response code: 404 (eval not found)"));
      reflexivity.
  - apply (proj2 (refresh_transport_error (chain_client "running")
                    {| evalId := "e2"; deploymentId := "d9" |} []
                    "Unexpected response code: 404 (deployment not found)"));
      [discriminate|reflexivity].
Defined.

(** X17: every call of the closure makes exactly one remote call, the
    evaluation lookup while no deployment id is captured and the deployment
    lookup afterwards, and it never panics, whatever the client answers. *)
Theorem refresh_one_call (client : Client) (vars : RefreshVars)
  (calls : list Call) :
  (deploymentStateRefreshFunc client (vars, calls)).2.2
  = calls ++ [refresh_call vars]
  /\ exists r, (deploymentStateRefreshFunc client (vars, calls)).1 = Return r.
Proof.
  rewrite refresh_cases. unfold refresh_call.
  destruct (String.eqb (deploymentId vars) "").
  - destruct (EvaluationInfo client calls (evalId vars)) as [e|eval];
      [split; eauto|].
    destruct (String.eqb (Evaluation.Status eval) "complete").
    + destruct (negb _); [split; eauto|]. destruct (negb _); split; eauto.
    + destruct (_ || _); split; eauto.
  - destruct (DeploymentInfo client calls (deploymentId vars)); split; eauto.
Qed.

(** X18: the deployment phase is final: once a deployment id is captured,
    no call changes the captured variables, whatever the client answers, so
    the closure never goes back to fetching evaluations and never switches
    to another deployment. *)
Theorem refresh_deployment_phase_final (client : Client) (vars : RefreshVars)
  (calls : list Call) :
  deploymentId vars <> "" ->
  (deploymentStateRefreshFunc client (vars, calls)).2
  = (vars, calls ++ [CallDeploymentInfo (deploymentId vars)]).
Proof.
  intros Hd. rewrite refresh_cases. apply String.eqb_neq in Hd. rewrite Hd.
  now destruct (DeploymentInfo client calls (deploymentId vars)).
Qed.

Lemma refresh_deployment_phase_final_witness :
  (deploymentStateRefreshFunc (chain_client "failed")
     ({| evalId := "e2"; deploymentId := "d1" |}, [])).2
  = ({| evalId := "e2"; deploymentId := "d1" |}, [] ++ [CallDeploymentInfo "d1"]).
Proof.
  apply (refresh_deployment_phase_final (chain_client "failed")
           {| evalId := "e2"; deploymentId := "d1" |} []).
  discriminate.
Defined.

(** X19: the label a call returns announces what the next call fetches.
    After a call that returned "monitoring_evaluation", the next call looks
    up the evaluation then captured (the follow-up evaluation if the chain
    went on); after one that returned "monitoring_deployment", the next call
    looks up the deployment captured, and no evaluation any more. *)
Theorem refresh_label_announces_next_call (client : Client) (vars : RefreshVars)
  (calls : list Call) :
  let r := deploymentStateRefreshFunc client (vars, calls) in
  forall res, r.1 = Return res ->
  (refresh_state res = "monitoring_evaluation" ->
   (deploymentStateRefreshFunc client r.2).2.2
   = r.2.2 ++ [CallEvaluationInfo (evalId r.2.1)])
  /\ (refresh_state res = "monitoring_deployment" ->
      deploymentId r.2.1 <> ""
      /\ (deploymentStateRefreshFunc client r.2).2.2
         = r.2.2 ++ [CallDeploymentInfo (deploymentId r.2.1)]).
Proof.
  cbv zeta. intros res.
  assert (Hnext : forall v c,
    (deploymentStateRefreshFunc client (v, c)).2.2 = c ++ [refresh_call v]).
  { intros v c. apply refresh_appends. }
  rewrite refresh_cases.
  destruct (String.eqb_spec (deploymentId vars) "") as [Hd|Hd].
  - destruct (EvaluationInfo client calls (evalId vars)) as [e|eval].
    { intros [= <-]. split; discriminate. }
    destruct (String.eqb (Evaluation.Status eval) "complete").
    + destruct (String.eqb_spec (Evaluation.NextEval eval) "") as [Hn|Hn];
        cbn [negb].
      * destruct (String.eqb_spec (Evaluation.DeploymentID eval) "") as [Hx|Hx];
          cbn [negb]; intros [= <-]; cbn [refresh_state fst snd].
        -- split; discriminate.
        -- split; [discriminate|]. intros _. split; [exact Hx|].
           rewrite Hnext. unfold refresh_call. cbn [deploymentId].
           apply String.eqb_neq in Hx. now rewrite Hx.
      * intros [= <-]. cbn [refresh_state fst snd]. split; [|discriminate].
        intros _. rewrite Hnext. unfold refresh_call. cbn [deploymentId evalId].
        now rewrite Hd.
    + destruct (_ || _); intros [= <-]; cbn [refresh_state fst snd];
        split; try discriminate.
      intros _. rewrite Hnext. unfold refresh_call. now rewrite Hd.
  - destruct (DeploymentInfo client calls (deploymentId vars)) as [e|dep].
    { intros [= <-]. split; discriminate. }
    intros [= <-]. cbn [fst snd].
    destruct (String.eqb (Deployment.Status dep) "successful");
      [split; discriminate|].
    destruct (_ || _); [split; discriminate|].
    split; [discriminate|]. intros _. split; [exact Hd|].
    rewrite Hnext. unfold refresh_call. apply String.eqb_neq in Hd. now rewrite Hd.
Qed.

Lemma refresh_label_announces_next_call_witness :
  let client := chain_client "running" in
  let r := deploymentStateRefreshFunc client (deploymentStateRefreshFunc_init "e2", []) in
  (refresh_state (Build_Refresh None "monitoring_deployment" None)
   = "monitoring_evaluation" ->
   (deploymentStateRefreshFunc client r.2).2.2
   = r.2.2 ++ [CallEvaluationInfo (evalId r.2.1)])
  /\ (refresh_state (Build_Refresh None "monitoring_deployment" None)
      = "monitoring_deployment" ->
      deploymentId r.2.1 <> ""
      /\ (deploymentStateRefreshFunc client r.2).2.2
         = r.2.2 ++ [CallDeploymentInfo (deploymentId r.2.1)]).
Proof.
  cbv zeta.
  apply (refresh_label_announces_next_call (chain_client "running")
           (deploymentStateRefreshFunc_init "e2") []
           (Build_Refresh None "monitoring_deployment" None)).
  reflexivity.
Defined.

(** X20: a call returns an error exactly when it returns the empty state
    label; and it returns a deployment record only from the deployment
    phase. *)
Theorem refresh_error_iff_no_label (client : Client) (vars : RefreshVars)
  (calls : list Call) :
  forall res, (deploymentStateRefreshFunc client (vars, calls)).1 = Return res ->
  (refresh_err res <> None <-> refresh_state res = "")
  /\ (refresh_result res <> None -> deploymentId vars <> "").
Proof.
  intros res. rewrite refresh_cases.
  destruct (String.eqb_spec (deploymentId vars) "") as [Hd|Hd].
  - destruct (EvaluationInfo client calls (evalId vars)) as [e|eval].
    { intros [= <-]. cbn. split; [split; [reflexivity|discriminate]|congruence]. }
    destruct (String.eqb (Evaluation.Status eval) "complete").
    + destruct (negb _); [|destruct (negb _)]; intros [= <-]; cbn;
        (split; [split; [congruence|discriminate]|congruence]).
    + destruct (_ || _); intros [= <-]; cbn.
      * split; [split; [reflexivity|discriminate]|congruence].
      * split; [split; [congruence|discriminate]|congruence].
  - destruct (DeploymentInfo client calls (deploymentId vars)) as [e|dep].
    { intros [= <-]. cbn. split; [split; [reflexivity|discriminate]|auto]. }
    intros [= <-].
    destruct (String.eqb (Deployment.Status dep) "successful"); cbn.
    { split; [split; [congruence|discriminate]|auto]. }
    destruct (_ || _); cbn.
    + split; [split; [reflexivity|discriminate]|auto].
    + split; [split; [congruence|discriminate]|auto].
Qed.

Lemma refresh_error_iff_no_label_witness :
  (refresh_err (Build_Refresh None "monitoring_evaluation" None) <> None
   <-> refresh_state (Build_Refresh None "monitoring_evaluation" None) = "")
  /\ (refresh_result (Build_Refresh None "monitoring_evaluation" None) <> None ->
      deploymentId (deploymentStateRefreshFunc_init "e1") <> "").
Proof.
  apply (refresh_error_iff_no_label (chain_client "running")
           (deploymentStateRefreshFunc_init "e1") []).
  reflexivity.
Defined.

(** ** The spec parser, once more *)

(** X21: an envelope is unwrapped exactly once.  For every JSON document
    [j], parsing [{"Job": j}] decodes [j] itself as the record, also when
    [j] has a member "Job" of its own, and accepts it exactly when the
    record decoded from [j] is not the all-default one. *)
Theorem envelope_unwrapped_once (j : string) (v : Json.value) :
  Json.parse j = inr v ->
  parseJSONVolumespec (envelope j)
  = match Unmarshal_CSIVolume j with
    | inl e => (None, Some e)
    | inr volume => (Some volume, None)
    end
  /\ parseVolumespec (envelope j) true
     = match Unmarshal_CSIVolume j with
       | inl e => (None, Some ("error parsing jobspec: " +:+ e))
       | inr volume =>
         if bool_decide (volume = CSIVolume.zero)
         then (None,
               Some "error parsing volumespec: input JSON is not a valid Nomad volumespec")
         else (Some volume, None)
       end.
Proof.
  intros Hj. destruct (JsonFacts.parse_envelope j v Hj) as (raw & Henv & Hraw).
  assert (H : parseJSONVolumespec (envelope j)
              = match Unmarshal_CSIVolume j with
                | inl e => (None, Some e)
                | inr volume => (Some volume, None)
                end).
  { unfold parseJSONVolumespec, Unmarshal_RawMessages. rewrite Henv.
    cbn [Decode.raw_messages_of_value foldl fst snd].
    rewrite lookup_insert_eq. unfold Unmarshal_CSIVolume. now rewrite Hraw, Hj. }
  split; [exact H|]. unfold parseVolumespec. rewrite H.
  now destruct (Unmarshal_CSIVolume j).
Qed.

Lemma envelope_unwrapped_once_witness :
  let j := dq "{'Job': {'ID': 'foo'}, 'ID': 'bar'}" in
  parseJSONVolumespec (envelope j)
  = match Unmarshal_CSIVolume j with
    | inl e => (None, Some e)
    | inr volume => (Some volume, None)
    end
  /\ parseVolumespec (envelope j) true
     = match Unmarshal_CSIVolume j with
       | inl e => (None, Some ("error parsing jobspec: " +:+ e))
       | inr volume =>
         if bool_decide (volume = CSIVolume.zero)
         then (None,
               Some "error parsing volumespec: input JSON is not a valid Nomad volumespec")
         else (Some volume, None)
       end.
Proof.
  cbv zeta.
  apply (envelope_unwrapped_once (dq "{'Job': {'ID': 'foo'}, 'ID': 'bar'}")
           (Json.Object
              [("Job", (dq "{'ID': 'foo'}",
                        Json.Object [("ID", (dq "'foo'", Json.Str "foo"))]));
               ("ID", (dq "'bar'", Json.Str "bar"))])).
  vm_compute. reflexivity.
Defined.

(** X22: the two parsers return either a record and no error or no record
    and an error, never both and never neither; a record the spec parser
    returns is not the all-default one, and every error it returns starts
    with "error parsing ". *)
Theorem parse_results_exclusive (raw : string) (is_json : bool) :
  match parseJSONVolumespec raw with
  | (Some _, None) | (None, Some _) => True
  | _ => False
  end
  /\ match parseVolumespec raw is_json with
     | (Some volume, None) => volume <> CSIVolume.zero
     | (None, Some e) => HasPrefix e "error parsing " = true
     | _ => False
     end.
Proof.
  split.
  - unfold parseJSONVolumespec.
    destruct (Unmarshal_RawMessages raw) as [e|root]; [exact I|].
    now destruct (Unmarshal_CSIVolume _).
  - unfold parseVolumespec. destruct is_json; [|reflexivity].
    destruct (parseJSONVolumespec raw) as [vol [e|]]; [reflexivity|].
    destruct vol as [volume|]; cbn [is_empty_volume]; [|reflexivity].
    case_bool_decide; [reflexivity|assumption].
Qed.

(** ** The data source *)

Section DataSourceFacts.
Variable gosyntax : error -> string.

Lemma ds_namespace_nonempty (d : DataSourceData) :
  default_namespace (ds_string d "namespace") <> ""
  /\ (strings (rd_attrs (ds_rd d)) !! "namespace" = None ->
      default_namespace (ds_string d "namespace") = "default").
Proof.
  split; [apply default_namespace_nonempty|].
  intros Hnone. unfold ds_string. now rewrite Hnone.
Qed.

(** X23: when its lookup fails, the data source always returns an error and
    never touches its state: a not-found error (its text contains "404") is
    returned as it is, any other one behind the prefix "error checking for
    job: ".  Unlike read of the resource, it never turns "not found" into a
    success. *)
Theorem data_source_lookup_failure (client : Client) (d : DataSourceData)
  (calls : list Call) (e : error) :
  let ns := default_namespace (ds_string d "namespace") in
  Info client calls (ds_string d "volume_id") ns = inl e ->
  dataSourceCSIVolumeRead gosyntax client (d, calls)
  = (Return (Some (if Contains e "404" then e
                   else "error checking for job: " +:+ gosyntax e)),
     (d, calls ++ [CallInfo (ds_string d "volume_id") ns])).
Proof.
  intros ns HInfo. unfold dataSourceCSIVolumeRead, DS.GetString.
  rewrite !bind_gets. cbn [fst]. fold ns.
  unfold CSIVolumes_Info, remote, bind at 1. cbn [fst snd]. rewrite HInfo.
  now destruct (Contains e "404").
Qed.

(** X24: when its lookup finds the volume, the data source takes the id of
    the record found as its identity, stores id, namespace, name, plugin id,
    access mode and attachment mode of the record and the type "csi", and
    returns success.  Both indices are stored as the [int] of the same 64
    bits, so an index of 2^63 or more is stored negative; the external id (a
    string for an integer key) and the mount options (a struct for a map
    key) are not stored.  The lookup is made in the stored namespace, or in
    "default" when that is unset or empty. *)
Theorem data_source_found (client : Client) (d : DataSourceData)
  (calls : list Call) (volume : CSIVolume.t) :
  let stored_ns := ds_string d "namespace" in
  let ns := if String.eqb stored_ns "" then "default" else stored_ns in
  Info client calls (ds_string d "volume_id") ns = inr volume ->
  dataSourceCSIVolumeRead gosyntax client (d, calls)
  = (Return None,
     (ds_found volume d, calls ++ [CallInfo (ds_string d "volume_id") ns]))
  /\ rd_id (ds_rd (ds_found volume d)) = CSIVolume.ID volume
  /\ ds_string (ds_found volume d) "volume_id" = CSIVolume.ID volume
  /\ ds_string (ds_found volume d) "type" = "csi"
  /\ ds_numbers (ds_found volume d) !! "modify_index"
     = Some (int_of_uint64 (CSIVolume.ModifyIndex volume))
  /\ ds_numbers (ds_found volume d) !! "create_index"
     = Some (int_of_uint64 (CSIVolume.CreateIndex volume))
  /\ ((CSIVolume.ModifyIndex volume < 2 ^ 63)%N ->
      int_of_uint64 (CSIVolume.ModifyIndex volume)
      = Z.of_N (CSIVolume.ModifyIndex volume))
  /\ ((2 ^ 63 <= CSIVolume.ModifyIndex volume < 2 ^ 64)%N ->
      int_of_uint64 (CSIVolume.ModifyIndex volume)
      = (Z.of_N (CSIVolume.ModifyIndex volume) - 2 ^ 64)%Z)
  /\ strings (rd_attrs (ds_rd (ds_found volume d))) !! "external_id"
     = strings (rd_attrs (ds_rd d)) !! "external_id"
  /\ mounts (rd_attrs (ds_rd (ds_found volume d))) = mounts (rd_attrs (ds_rd d))
  /\ (strings (rd_attrs (ds_rd d)) !! "namespace" = None -> ns = "default").
Proof.
  intros stored_ns ns HInfo.
  change ns with (default_namespace (ds_string d "namespace")) in *.
  split.
  { unfold dataSourceCSIVolumeRead, DS.GetString.
    rewrite !bind_gets. cbn [fst].
    unfold CSIVolumes_Info, remote, bind at 1. cbn [fst snd]. rewrite HInfo.
    unfold DS.SetId, DS.SetString, DS.SetIntOfString, DS.SetMapOfPointer,
      DS.SetIntOfUint64.
    repeat first
      [ rewrite bind_modify;
        cbn [fst snd ds_rd ds_numbers rd_id rd_attrs]
      | rewrite bind_ret_unit ].
    reflexivity. }
  split; [reflexivity|].
  split.
  { unfold ds_string, ds_found, set_string; cbn [ds_rd rd_attrs strings].
    rewrite !lookup_insert_ne by discriminate. now rewrite lookup_insert_eq. }
  split.
  { unfold ds_string, ds_found, set_string; cbn [ds_rd rd_attrs strings].
    rewrite !lookup_insert_ne by discriminate. now rewrite lookup_insert_eq. }
  split; [apply lookup_insert_eq|].
  split.
  { cbn [ds_found ds_numbers]. rewrite lookup_insert_ne by discriminate.
    apply lookup_insert_eq. }
  split.
  { intros Hlt. unfold int_of_uint64. cbv zeta.
    rewrite Z.mod_small by lia.
    destruct (Z.ltb_spec (Z.of_N (CSIVolume.ModifyIndex volume)) (2 ^ 63)); lia. }
  split.
  { intros [Hge Hlt]. unfold int_of_uint64. cbv zeta.
    rewrite Z.mod_small by lia.
    destruct (Z.ltb_spec (Z.of_N (CSIVolume.ModifyIndex volume)) (2 ^ 63)); lia. }
  split.
  { unfold ds_found, set_string; cbn [ds_rd rd_attrs strings].
    now rewrite !lookup_insert_ne by discriminate. }
  split; [reflexivity|].
  apply ds_namespace_nonempty.
Qed.
End DataSourceFacts.

Lemma data_source_lookup_failure_witness :
  let show := fun e : error => "errors.errorString(" +:+ e +:+ ")" in
  dataSourceCSIVolumeRead show
    (volume_client (None, None) None (inl internal_error))
    (ds_stored [("volume_id", "vol-a")], [])
  = (Return (Some (if Contains internal_error "404" then internal_error
                   else "error checking for job: " +:+ show internal_error)),
     (ds_stored [("volume_id", "vol-a")], [] ++ [CallInfo "vol-a" "default"])).
Proof.
  cbv zeta.
  apply (data_source_lookup_failure
           (fun e : error => "errors.errorString(" +:+ e +:+ ")")
           (volume_client (None, None) None (inl internal_error))
           (ds_stored [("volume_id", "vol-a")]) []).
  reflexivity.
Defined.

Lemma data_source_found_witness :
  let d := ds_stored [("volume_id", "vol-a"); ("namespace", "ns2");
                      ("external_id", "kept")] in
  dataSourceCSIVolumeRead (fun e => e)
    (volume_client (None, None) None (inr vol_a_ns2)) (d, [])
  = (Return None, (ds_found vol_a_ns2 d, [] ++ [CallInfo "vol-a" "ns2"]))
  /\ rd_id (ds_rd (ds_found vol_a_ns2 d)) = "vol-a"
  /\ ds_string (ds_found vol_a_ns2 d) "volume_id" = "vol-a"
  /\ ds_string (ds_found vol_a_ns2 d) "type" = "csi"
  /\ ds_numbers (ds_found vol_a_ns2 d) !! "modify_index"
     = Some (int_of_uint64 18446744073709551615)
  /\ ds_numbers (ds_found vol_a_ns2 d) !! "create_index"
     = Some (int_of_uint64 3)
  /\ ((18446744073709551615 < 2 ^ 63)%N ->
      int_of_uint64 18446744073709551615 = Z.of_N 18446744073709551615)
  /\ ((2 ^ 63 <= 18446744073709551615 < 2 ^ 64)%N ->
      int_of_uint64 18446744073709551615
      = (Z.of_N 18446744073709551615 - 2 ^ 64)%Z)
  /\ strings (rd_attrs (ds_rd (ds_found vol_a_ns2 d))) !! "external_id"
     = strings (rd_attrs (ds_rd d)) !! "external_id"
  /\ mounts (rd_attrs (ds_rd (ds_found vol_a_ns2 d))) = mounts (rd_attrs (ds_rd d))
  /\ (strings (rd_attrs (ds_rd d)) !! "namespace" = None -> "ns2" = "default").
Proof.
  cbv zeta.
  apply (data_source_found (fun e => e)
           (volume_client (None, None) None (inr vol_a_ns2))
           (ds_stored [("volume_id", "vol-a"); ("namespace", "ns2");
                       ("external_id", "kept")]) [] vol_a_ns2).
  reflexivity.
Defined.

Example data_source_index_wraps :
  int_of_uint64 18446744073709551615 = (-1)%Z /\ int_of_uint64 3 = 3%Z.
Proof. split; reflexivity. Qed.

(** ** Suppressing differences of the spec text *)

Section DiffSuppressFacts.
Context {Job : Type} `{EqDecision Job}.
Variable jobspec_Parse : string -> error + Job.
Variable Canonicalize : Job -> Job.

(** X25: whatever the parser of job texts and the normalisation are, a
    difference is suppressed only between two texts that both parse;
    suppression does not depend on the attribute name or the stored state
    and is symmetric in the two texts; and a text is suppressed against
    itself exactly when it parses, so an unparsable text always shows as a
    difference, even against itself. *)
Theorem diff_suppress_symmetric (k k' old new : string) (d d' : ResourceData) :
  volumespecDiffSuppress jobspec_Parse Canonicalize k old new d
  = volumespecDiffSuppress jobspec_Parse Canonicalize k' new old d'
  /\ (volumespecDiffSuppress jobspec_Parse Canonicalize k old new d = true ->
      (exists a, jobspec_Parse old = inr a) /\ (exists b, jobspec_Parse new = inr b))
  /\ (volumespecDiffSuppress jobspec_Parse Canonicalize k old old d = true
      <-> exists a, jobspec_Parse old = inr a).
Proof.
  unfold volumespecDiffSuppress. split; [|split].
  - destruct (jobspec_Parse old) as [e|a], (jobspec_Parse new) as [e'|b];
      try reflexivity.
    apply bool_decide_ext. split; congruence.
  - destruct (jobspec_Parse old) as [e|a]; [discriminate|].
    destruct (jobspec_Parse new) as [e'|b]; [discriminate|]. eauto.
  - destruct (jobspec_Parse old) as [e|a].
    + split; [discriminate|]. intros [a Ha]. discriminate.
    + split; [eauto|]. intros _. now apply bool_decide_eq_true_2.
Qed.
End DiffSuppressFacts.

Lemma diff_suppress_symmetric_witness :
  let suppress := volumespecDiffSuppress sample_Parse sample_Canonicalize in
  let d := stored "vol-a" [] [] in
  suppress "volumespec" "a b" "ab" d = suppress "other" "ab" "a b" d
  /\ (suppress "volumespec" "a b" "ab" d = true ->
      (exists a, sample_Parse "a b" = inr a) /\ (exists b, sample_Parse "ab" = inr b))
  /\ (suppress "volumespec" "a b" "a b" d = true
      <-> exists a, sample_Parse "a b" = inr a).
Proof.
  cbv zeta.
  apply (diff_suppress_symmetric sample_Parse sample_Canonicalize
           "volumespec" "other" "a b" "ab").
Defined.
